(** * chunk_processor.py: the chunk planner and its line-count validation

    A shallow embedding of [ChunkProcessor] (src/chunk_processor.py) and the
    properties of its chunking loop.

    Conventions of the embedding.
    - A text (the [content] of the input file, a [chunk]) is a list of
      characters; positions and counts are Python integers, hence [Z].
    - Identifiers (model names, exception class names, paths) are [string]s.
    - A call either returns or raises: [outcome].  Exceptions are named by
      their Python class.
    - [math.ceil(a / b)] on integers is taken exactly.  Python rounds the
      quotient to binary64 first; the two agree whenever [|a|] is below 2^53
      and [|b|] below 2^1074 (the rounding error is then less than [1 / |b|],
      and the quotient does not underflow), which covers every text that
      fits in memory and every count that a loop can run through.
    - The safety factor is a Python number: an [int] or a binary64 [float]. *)

From Stdlib Require Import ZArith List Bool Lia Ascii String.
From Stdlib Require Import Numbers.DecimalString.
From Stdlib Require Import Floats.PrimFloat Floats.SpecFloat Floats.FloatOps.
From Stdlib Require Import Numbers.Cyclic.Int63.Uint63.
Import ListNotations.

Local Open Scope Z_scope.

(** ** Python values and builtins *)

Module Py.

Definition str := list ascii.

(** Exceptions, by class name. *)
Definition exn := string.
Definition KeyError : exn := "KeyError"%string.
Definition ZeroDivisionError : exn := "ZeroDivisionError"%string.
Definition ValueError : exn := "ValueError"%string.
Definition OverflowError : exn := "OverflowError"%string.

Inductive outcome (A : Type) : Type :=
| Return (a : A)
| Raise (e : exn).
Arguments Return {A} a.
Arguments Raise {A} e.

Definition bind {A B} (m : outcome A) (k : A -> outcome B) : outcome B :=
  match m with
  | Return a => k a
  | Raise e => Raise e
  end.

(** [len(s)] *)
Definition len {A} (s : list A) : Z := Z.of_nat (List.length s).

(** Index normalisation of a slice bound: a negative bound counts from the
    end, and every bound is clamped to [0 .. len]. *)
Definition clamp (n i : Z) : Z :=
  if i <? 0 then Z.max 0 (i + n) else Z.min i n.

(** [s[a:b]] *)
Definition slice {A} (s : list A) (a b : Z) : list A :=
  let a' := clamp (len s) a in
  let b' := clamp (len s) b in
  firstn (Z.to_nat (b' - a')) (skipn (Z.to_nat a') s).

(** [s.startswith(p)] *)
Fixpoint startswith (s p : str) : bool :=
  match p, s with
  | [], _ => true
  | _ :: _, [] => false
  | x :: p', y :: s' => Ascii.eqb x y && startswith s' p'
  end.

(** The highest position at which [sub] occurs in [s], counted from [i]. *)
Fixpoint last_index (s sub : str) (i : Z) : option Z :=
  match s with
  | [] => if startswith [] sub then Some i else None
  | _ :: s' =>
      match last_index s' sub (i + 1) with
      | Some j => Some j
      | None => if startswith s sub then Some i else None
      end
  end.

(** [s.rfind(sub)] *)
Definition rfind (s sub : str) : Z :=
  match last_index s sub 0 with
  | Some j => j
  | None => -1
  end.

(** [s.count(c)] for a one-character [c]. *)
Fixpoint count (s : str) (c : ascii) : Z :=
  match s with
  | [] => 0
  | x :: s' => (if Ascii.eqb x c then 1 else 0) + count s' c
  end.

(** [math.ceil(a / b)] *)
Definition ceil_div (a b : Z) : outcome Z :=
  if b =? 0 then Raise ZeroDivisionError else Return (- ((- a) / b)).

(** Numbers. *)
Inductive num : Type :=
| Int (z : Z)
| Float (f : float).

(** Truth value of a number: everything but zero ([0], [0.0], [-0.0]). *)
Definition truthy (x : num) : bool :=
  match x with
  | Int z => negb (z =? 0)
  | Float f => negb (PrimFloat.eqb f 0%float)
  end.

(** [int(f)] on a float: truncation toward zero. *)
Definition int_of_float (f : float) : outcome Z :=
  match Prim2SF f with
  | S754_zero _ => Return 0
  | S754_infinity _ => Raise OverflowError
  | S754_nan => Raise ValueError
  | S754_finite s m e =>
      let a := if 0 <=? e then Z.pos m * 2 ^ e else Z.pos m / 2 ^ (- e) in
      Return (if s then - a else a)
  end.

(** [int(n * x)] for an integer [n] that a float holds exactly. *)
Definition int_of_scaled (n : Z) (x : num) : outcome Z :=
  match x with
  | Int z => Return (n * z)
  | Float f => int_of_float (PrimFloat.mul (PrimFloat.of_uint63 (Uint63.of_Z n)) f)
  end.

(** [str(n)] *)
Definition str_of_int (n : Z) : string := NilZero.string_of_int (Z.to_int n).

End Py.
Import Py.

Notation "x <- m ;; k" := (bind m (fun x => k))
  (at level 61, m at next level, right associativity).

Definition text (s : string) : str := list_ascii_of_string s.
Definition newline : ascii := "010"%char.

(** [range(n)] *)
Definition range (n : Z) : list Z := map Z.of_nat (seq 0 (Z.to_nat n)).

(** ** ChunkProcessor *)

(** What the interpreter provides to [__init__]: the process environment,
    the builtin [float] on strings ([None] when it raises [ValueError]) and
    tiktoken's encoder of a named encoding. *)
Record host : Type := {
  getenv : string -> option string;
  float_of_str : string -> option float;
  get_encoding : string -> str -> list Z
}.

Record ChunkProcessor : Type := {
  model : string;
  context_limits : list (string * Z);
  safety_factor : num;
  tokenizer : str -> list Z
}.

Definition DEFAULT_SAFETY_FACTOR : float := 0.5%float.

(** [float(os.getenv('CHUNK_SAFETY_FACTOR', self.DEFAULT_SAFETY_FACTOR))] *)
Definition env_safety_factor (h : host) : outcome num :=
  match getenv h "CHUNK_SAFETY_FACTOR" with
  | None => Return (Float DEFAULT_SAFETY_FACTOR)
  | Some s =>
      match float_of_str h s with
      | Some f => Return (Float f)
      | None => Raise ValueError
      end
  end.

(** [a or b], with [b] evaluated only when [a] is falsy. *)
Definition or_else (a : option num) (b : outcome num) : outcome num :=
  match a with
  | Some x => if truthy x then Return x else b
  | None => b
  end.

Definition __init__ (h : host) (model : string) (safety_factor : option num)
  : outcome ChunkProcessor :=
  sf <- or_else safety_factor (env_safety_factor h) ;;
  Return {| model := model;
            context_limits :=
              [ ("claude-3-sonnet-20240229"%string, 200000);
                ("gpt-4"%string, 8192);
                ("gpt-3.5-turbo"%string, 4096) ];
            safety_factor := sf;
            tokenizer := get_encoding h "cl100k_base" |}.

(** [d[k]] on a dict given by its items. *)
Fixpoint getitem (d : list (string * Z)) (k : string) : outcome Z :=
  match d with
  | [] => Raise KeyError
  | (k', v) :: d' => if String.eqb k' k then Return v else getitem d' k
  end.

Definition get_effective_limit (self : ChunkProcessor) : outcome Z :=
  base_limit <- getitem (context_limits self) (model self) ;;
  int_of_scaled base_limit (safety_factor self).

Definition estimate_tokens (self : ChunkProcessor) (t : str) : Z :=
  len (tokenizer self t).

(** An entry of [chunks_info]. *)
Record chunk_info : Type := {
  file : string;
  chars : Z;
  tokens : Z;
  lines : Z;
  content : str
}.

(** The variables the chunking loop updates. *)
Record loop_state : Type := {
  chunks_info : list chunk_info;
  current_pos : Z;
  total_chunk_lines : Z
}.

Definition period_newline : str := ["."%char; newline].
Definition newline_newline : str := [newline; newline].

(** Lines 86-96: where the chunk that starts at [current_pos] ends. *)
Definition chunk_end (content : str) (num_chunks chunk_size i current_pos : Z) : Z :=
  let end_pos := Z.min (current_pos + chunk_size) (len content) in
  let chunk := slice content current_pos end_pos in
  if (i <? num_chunks - 1) && (end_pos <? len content) then
    let last_period := rfind chunk period_newline in
    let last_newline := rfind chunk newline_newline in
    let split_point := Z.max last_period last_newline in
    if negb (split_point =? -1) then current_pos + split_point + 2 else end_pos
  else end_pos.

Definition chunk_file (i : Z) : string :=
  ("chunks/chunk_" ++ str_of_int (i + 1) ++ ".txt")%string.

(** Lines 85-120: one pass of the loop body (past the [break] test). *)
Definition loop_body (self : ChunkProcessor) (content : str)
    (num_chunks chunk_size i : Z) (st : loop_state) : loop_state :=
  let end_pos := chunk_end content num_chunks chunk_size i (current_pos st) in
  let chunk := slice content (current_pos st) end_pos in
  let chunk_lines := count chunk newline in
  {| chunks_info :=
       chunks_info st ++
         [ {| file := chunk_file i;
              chars := len chunk;
              tokens := estimate_tokens self chunk;
              lines := chunk_lines;
              content := chunk |} ];
     current_pos := end_pos;
     total_chunk_lines := total_chunk_lines st + chunk_lines |}.

(** Lines 81-120: [for i in range(num_chunks)] with its [break]. *)
Fixpoint for_loop (self : ChunkProcessor) (content : str)
    (num_chunks chunk_size : Z) (indices : list Z) (st : loop_state) : loop_state :=
  match indices with
  | [] => st
  | i :: rest =>
      if len content <=? current_pos st then st
      else for_loop self content num_chunks chunk_size rest
             (loop_body self content num_chunks chunk_size i st)
  end.

(** Lines 63-66: the number of chunks to split into. *)
Definition chunks_needed (self : ChunkProcessor) (content : str)
    (num_chunks : option Z) : outcome Z :=
  let total_tokens := estimate_tokens self content in
  effective_limit <- get_effective_limit self ;;
  min_chunks <- ceil_div total_tokens effective_limit ;;
  Return (match num_chunks with
          | None => min_chunks
          | Some n => if n <? min_chunks then min_chunks else n
          end).

(** Lines 74-120: the state in which the loop ends. *)
Definition split (self : ChunkProcessor) (content : str) (num_chunks : Z)
  : outcome loop_state :=
  chunk_size <- ceil_div (len content) num_chunks ;;
  Return (for_loop self content num_chunks chunk_size (range num_chunks)
            {| chunks_info := []; current_pos := 0; total_chunk_lines := 0 |}).

(** Lines 122-127: what the line count validation writes to stderr. *)
Definition validate (original_lines total_chunk_lines : Z) : list string :=
  if negb (original_lines =? total_chunk_lines) then
    [ ("Warning: Lost " ++ str_of_int (original_lines - total_chunk_lines)
         ++ " lines during chunking!")%string ]
  else [].

(** The observable result of a call that returns: the list it returns and
    what it wrote to stderr. *)
Record report : Type := {
  returned : list chunk_info;
  stderr : list string
}.

(** [process_file] on the decoded [content] of the input file (the read at
    lines 40-50 is the caller's part, as are stdout and [interactive]). *)
Definition process_file (self : ChunkProcessor) (content : str)
    (num_chunks : option Z) : outcome report :=
  let original_lines := count content newline in
  num_chunks <- chunks_needed self content num_chunks ;;
  st <- split self content num_chunks ;;
  Return {| returned := chunks_info st;
            stderr := validate original_lines (total_chunk_lines st) |}.

(** ** Notions used to state the properties *)

(** [sub] occurs in [s] at position [j]. *)
Definition occurs_at (s sub : str) (j : Z) : Prop :=
  exists pre post, s = pre ++ sub ++ post /\ len pre = j.

(** The naive boundary of line 86. *)
Definition naive_end (content : str) (chunk_size current_pos : Z) : Z :=
  Z.min (current_pos + chunk_size) (len content).

(** A chunk of the plan: its index in the loop, its start and its end. *)
Definition span : Type := (Z * (Z * Z))%type.
Definition span_start (sp : span) : Z := fst (snd sp).
Definition span_end (sp : span) : Z := snd (snd sp).

(** The chunks the loop cuts when it runs over [indices] from [pos]. *)
Fixpoint spans (content : str) (num_chunks chunk_size : Z)
    (indices : list Z) (pos : Z) : list span :=
  match indices with
  | [] => []
  | i :: rest =>
      if len content <=? pos then []
      else
        let e := chunk_end content num_chunks chunk_size i pos in
        (i, (pos, e)) :: spans content num_chunks chunk_size rest e
  end.

(** The entry of [chunks_info] that the loop appends for a span. *)
Definition info_of (self : ChunkProcessor) (content : str) (sp : span) : chunk_info :=
  let chunk := slice content (span_start sp) (span_end sp) in
  {| file := chunk_file (fst sp);
     chars := len chunk;
     tokens := estimate_tokens self chunk;
     lines := count chunk newline;
     content := chunk |}.

(** Where a run of spans that starts at [pos] stops. *)
Definition last_end (pos : Z) (l : list span) : Z :=
  fold_left (fun _ sp => span_end sp) l pos.

Definition sum_lines (l : list chunk_info) : Z :=
  fold_right (fun c acc => lines c + acc) 0 l.

(** Spans that follow one another from [pos], each of 1 to [cs] characters,
    inside a text of [n] characters. *)
Fixpoint chain (n cs pos : Z) (l : list span) : Prop :=
  match l with
  | [] => True
  | sp :: l' =>
      span_start sp = pos /\ pos < span_end sp /\ span_end sp <= pos + cs /\
      span_end sp <= n /\ chain n cs (span_end sp) l'
  end.

(** The plan of a run: the spans cut for [num_chunks] chunks of [chunk_size]. *)
Definition plan (content : str) (num_chunks chunk_size : Z) : list span :=
  spans content num_chunks chunk_size (range num_chunks) 0.

(** ** Sample configurations *)

(** An encoder that spends [k] tokens on every character. *)
Definition tokens_per_char (k : nat) (t : str) : list Z :=
  flat_map (fun c => repeat (Z.of_N (N_of_ascii c)) k) t.

Definition sample_host (k : nat) : host :=
  {| getenv := fun _ => None;
     float_of_str := fun _ => None;
     get_encoding := fun _ => tokens_per_char k |}.

Definition sample (model : string) (safety_factor : num) (k : nat) : ChunkProcessor :=
  {| model := model;
     context_limits :=
       [ ("claude-3-sonnet-20240229"%string, 200000);
         ("gpt-4"%string, 8192);
         ("gpt-3.5-turbo"%string, 4096) ];
     safety_factor := safety_factor;
     tokenizer := tokens_per_char k |}.

Definition nl : string := String newline EmptyString.

(** The processor that [ChunkProcessor()] builds when the environment sets
    no safety factor: the default model at half its context window. *)
Definition default_processor : ChunkProcessor :=
  sample "claude-3-sonnet-20240229" (Float DEFAULT_SAFETY_FACTOR) 1.

(** Twelve characters, the first sentence three characters long. *)
Definition short_sentence_text : str := text ("a." ++ nl ++ "bcdefghij").

(** Five lines, the first of them a sentence. *)
Definition five_lines_text : str :=
  text ("a." ++ nl ++ "bc" ++ nl ++ "de" ++ nl ++ "fg" ++ nl ++ "hi" ++ nl).

(** ** LittleLisperConverter and its conversion *)

Definition JSONDecodeError : exn := "JSONDecodeError"%string.

Definition OLLAMA_URL : string := "http://localhost:11434/api/generate".
Definition MODEL : string := "llama3.2:latest".

Record LittleLisperConverter : Type := {
  chunks : list chunk_info;
  org_sections : list str
}.

(** [LittleLisperConverter()] *)
Definition new_converter : LittleLisperConverter :=
  {| chunks := []; org_sections := [] |}.

(** A line of a streamed reply as [convert_chunk] reads it: empty, a JSON
    object with or without the key ["response"], or bytes that [json.loads]
    rejects. *)
Inductive line : Type :=
| Blank
| Object (response : option str)
| Malformed.

(** A streamed reply: the lines that arrive, and whether the transfer then
    fails with a [RequestException] (with no line at all when the request
    itself fails). *)
Record reply : Type := {
  lines_received : list line;
  fails : bool
}.

(** The Ollama service: the answer to [GET /api/tags] ([None] for a
    [RequestException], else the status code and the names of the models
    listed), and the reply to a generation request for a model and a prompt. *)
Record service : Type := {
  tags : option (Z * list string);
  generate : string -> str -> reply
}.

(** [check_ollama] (a [RequestException] gives [False]). *)
Definition check_ollama (s : service) : bool :=
  match tags s with
  | Some (status_code, names) =>
      if status_code =? 200 then existsb (fun name => String.eqb name MODEL) names
      else false
  | None => false
  end.

(** Lines 176-185: the prompt of [convert_chunk]. *)
Definition prompt (chunk : str) : str :=
  text ("In org-mode with Babel and Tangle (use :mkdirp t to ensure examples don't pollute) make A Little Schemer version of the attached:"
        ++ nl ++ nl)
  ++ chunk
  ++ text (nl ++ nl
           ++ "The response should be valid org-mode with:" ++ nl
           ++ "1. Question and Answer format" ++ nl
           ++ "2. Code blocks using #+begin_src lisp and proper tangling" ++ nl
           ++ "3. Clear progressive learning style" ++ nl
           ++ "4. Each concept building on previous ones" ++ nl).

(** Lines 195-198: the loop over the lines of the reply. *)
Fixpoint read_lines (ls : list line) (response_text : str) : outcome str :=
  match ls with
  | [] => Return response_text
  | Blank :: rest => read_lines rest response_text
  | Object response :: rest =>
      read_lines rest
        (response_text ++ match response with Some t => t | None => [] end)
  | Malformed :: _ => Raise JSONDecodeError
  end.

(** [convert_chunk]: the text it returns (the message that it writes to
    stderr when the transfer fails is left out). *)
Definition convert_chunk (s : service) (chunk : str) : outcome str :=
  let r := generate s MODEL (prompt chunk) in
  response_text <- read_lines (lines_received r) [] ;;
  if fails r then Return [] else Return response_text.

(** Lines 208-213: the header of [stitch_org_file]. *)
Definition org_header : str :=
  text ("#+TITLE: A Little Schemer's Guide to AI Programming" ++ nl
        ++ "#+AUTHOR: Generated from PAIP by Peter Norvig" ++ nl
        ++ "#+OPTIONS: ^:nil" ++ nl
        ++ "#+PROPERTY: header-args:lisp :mkdirp t :tangle yes" ++ nl
        ++ nl).

(** Lines 216-219: the loop over [enumerate(self.org_sections, i)], with
    what has been written to the file so far. *)
Fixpoint write_sections (i : Z) (sections : list str) (written : str) : str :=
  match sections with
  | [] => written
  | section :: rest =>
      write_sections (i + 1) rest
        (written ++ text (nl ++ "* Chapter " ++ str_of_int i ++ nl) ++ section ++ [newline])
  end.

(** [stitch_org_file]: the file written, by name and content. *)
Definition stitch_org_file (self : LittleLisperConverter) (output_file : string)
  : string * str :=
  (output_file, write_sections 1 (org_sections self) org_header).

(** Lines 231-233: the loop over the chunks. *)
Fixpoint convert_each (s : service) (chunks_info : list chunk_info)
    (converter : LittleLisperConverter) : outcome LittleLisperConverter :=
  match chunks_info with
  | [] => Return converter
  | chunk :: rest =>
      org_content <- convert_chunk s (content chunk) ;;
      convert_each s rest
        {| chunks := chunks converter;
           org_sections := org_sections converter ++ [org_content] |}
  end.

(** [convert_to_little_lisper]: the file it writes, if any (it returns the
    name of that file, or [None] when it writes none; the progress bar and
    the messages are left out). *)
Definition convert_to_little_lisper (s : service) (chunks_info : list chunk_info)
  : outcome (option (string * str)) :=
  let converter := new_converter in
  if negb (check_ollama s) then Return None
  else
    converter <- convert_each s chunks_info converter ;;
    Return (Some (stitch_org_file converter "little-lisper-paip.org")).

(** ** The interactive walk and the command *)

Definition SubprocessError : exn := "SubprocessError"%string.
Definition Abort : exn := "Abort"%string.

(** [except subprocess.SubprocessError] catches the class and its two
    subclasses. *)
Definition is_SubprocessError (e : exn) : bool :=
  String.eqb e "SubprocessError" || String.eqb e "CalledProcessError"
  || String.eqb e "TimeoutExpired".

(** [click.confirm] on the answers that the user still has to give; it
    raises [Abort] when the input has ended. *)
Definition confirm (answers : list bool) : outcome (bool * list bool) :=
  match answers with
  | [] => Raise Abort
  | a :: rest => Return (a, rest)
  end.

(** What the walk leaves behind: the texts put on the clipboard, in order,
    and the messages on stderr. *)
Record walk : Type := {
  clipboard : list str;
  errors : list string
}.

(** [process_interactively], with [pbcopy] for lines 142-143 and the answers
    of the user to the confirmations. *)
Fixpoint process_interactively (pbcopy : str -> outcome unit)
    (chunks_info : list chunk_info) (answers : list bool) : outcome walk :=
  match chunks_info with
  | [] => Return {| clipboard := []; errors := [] |}
  | chunk_info :: rest =>
      match pbcopy (content chunk_info) with
      | Return _ =>
          a <- confirm answers ;;
          if fst a then
            w <- process_interactively pbcopy rest (snd a) ;;
            Return {| clipboard := content chunk_info :: clipboard w;
                      errors := errors w |}
          else Return {| clipboard := [content chunk_info]; errors := [] |}
      | Raise e =>
          if is_SubprocessError e then
            a <- confirm answers ;;
            if negb (fst a) then
              Return {| clipboard := [];
                        errors := ["Error: Failed to copy to clipboard"%string] |}
            else
              b <- confirm (snd a) ;;
              if fst b then
                w <- process_interactively pbcopy rest (snd b) ;;
                Return {| clipboard := clipboard w;
                          errors := "Error: Failed to copy to clipboard"%string :: errors w |}
              else
                Return {| clipboard := [];
                          errors := ["Error: Failed to copy to clipboard"%string] |}
          else Raise e
      end
  end.

(** What [open] and [read] give for the input file (lines 40-50). *)
Inductive file_read : Type :=
| Decoded (content : str)
| Missing
| Undecodable.

(** What a call of [process_file] on a file leaves behind: the value it
    returns ([None] for the bare [return]), stderr and the clipboard. *)
Record call : Type := {
  value : option (list chunk_info);
  messages : list string;
  copied : list str
}.

(** [process_file] as a whole: the read of the file, the chunking and the
    interactive walk. *)
Definition process_input_file (self : ChunkProcessor) (pbcopy : str -> outcome unit)
    (answers : list bool) (input_file : string) (read : file_read)
    (num_chunks : option Z) (interactive : bool) : outcome call :=
  match read with
  | Missing =>
      Return {| value := None;
                messages := [("Error: File " ++ input_file ++ " not found")%string];
                copied := [] |}
  | Undecodable =>
      Return {| value := None;
                messages := [("Error: File " ++ input_file ++ " is not valid UTF-8")%string];
                copied := [] |}
  | Decoded content =>
      r <- process_file self content num_chunks ;;
      w <- (if interactive then process_interactively pbcopy (returned r) answers
            else Return {| clipboard := []; errors := [] |}) ;;
      Return {| value := Some (returned r);
                messages := stderr r ++ errors w;
                copied := clipboard w |}
  end.

(** [main], by what it leaves behind: the call of [process_file] and the
    file of the conversion, if one is written.  The limits that it prints
    first are computed as in the source, since they can raise; stdout
    itself is left out. *)
Definition main (h : host) (s : service) (pbcopy : str -> outcome unit)
    (answers : list bool) (filename : string) (read : file_read)
    (num_chunks : option Z) (interactive : bool) (model : string)
    (safety_factor : option num) (little_lisper : bool)
  : outcome (call * option (string * str)) :=
  processor <- __init__ h model safety_factor ;;
  _ <- getitem (context_limits processor) model ;;
  _ <- get_effective_limit processor ;;
  c <- process_input_file processor pbcopy answers filename read num_chunks interactive ;;
  match value c with
  | Some (chunk :: rest) =>
      if little_lisper then
        written <- convert_to_little_lisper s (chunk :: rest) ;;
        Return (c, written)
      else Return (c, None)
  | _ => Return (c, None)
  end.

(** ** Further notions and samples *)

Definition sum_chars (l : list chunk_info) : Z :=
  fold_right (fun c acc => chars c + acc) 0 l.

(** [s] ends with [suffix]: [s.endswith(suffix)]. *)
Definition ends_with (s suffix : str) : Prop := exists pre, s = pre ++ suffix.

Definition registry_names : list string :=
  ["claude-3-sonnet-20240229"; "gpt-4"; "gpt-3.5-turbo"]%string.

(** The text of a chapter. *)
Definition chapter (i : Z) (section : str) : str :=
  text (nl ++ "* Chapter " ++ str_of_int i ++ nl) ++ section ++ [newline].

(** The chapters of sections numbered from [i]. *)
Fixpoint chapters (i : Z) (sections : list str) : str :=
  match sections with
  | [] => []
  | section :: rest => chapter i section ++ chapters (i + 1) rest
  end.


(** A host whose environment sets CHUNK_SAFETY_FACTOR to a string that is
    not a number. *)
Definition misconfigured_host : host :=
  {| getenv := fun _ => Some "half"%string;
     float_of_str := fun _ => None;
     get_encoding := fun _ => tokens_per_char 1 |}.

(** A service that lists MODEL and answers every prompt with the three
    lines [{"response": "Q"}], an empty line and [{"response": "A"}]. *)
Definition sample_service : service :=
  {| tags := Some (200, [MODEL]);
     generate := fun _ _ =>
       {| lines_received := [Object (Some (text "Q")); Blank; Object (Some (text "A"))];
          fails := false |} |}.

(** * Properties *)

(** ** Slices *)

Section Slices.
Context {A : Type}.
Implicit Types s : list A.

Lemma len_nonneg s : 0 <= len s.
Proof. unfold len; lia. Qed.

Lemma len_app s t : len (s ++ t) = len s + len t.
Proof. unfold len; rewrite length_app; lia. Qed.

Lemma clamp_inrange n i : 0 <= i <= n -> clamp n i = i.
Proof. unfold clamp; intros H; destruct (Z.ltb_spec i 0); lia. Qed.

Lemma slice_inrange s a b :
  0 <= a <= b -> b <= len s ->
  slice s a b = firstn (Z.to_nat (b - a)) (skipn (Z.to_nat a) s).
Proof.
  intros Hab Hb; unfold slice.
  rewrite !clamp_inrange by lia; reflexivity.
Qed.

Lemma len_slice s a b : 0 <= a <= b -> b <= len s -> len (slice s a b) = b - a.
Proof.
  intros Hab Hb; rewrite slice_inrange by assumption.
  unfold len in *; rewrite length_firstn, length_skipn; lia.
Qed.

Lemma slice_all s : slice s 0 (len s) = s.
Proof.
  rewrite slice_inrange by (pose proof (len_nonneg s); lia).
  cbn [Z.to_nat skipn]; rewrite Z.sub_0_r.
  unfold len; rewrite Nat2Z.id; apply firstn_all.
Qed.

Lemma slice_empty s a : 0 <= a <= len s -> slice s a a = [].
Proof.
  intros Ha; rewrite slice_inrange by lia.
  rewrite Z.sub_diag; reflexivity.
Qed.

Lemma firstn_plus (n m : nat) s :
  firstn (n + m) s = firstn n s ++ firstn m (skipn n s).
Proof.
  revert s; induction n as [|n IH]; intros [|x s]; cbn; try reflexivity.
  - now rewrite firstn_nil.
  - now rewrite IH.
Qed.

(** Adjacent slices join. *)
Lemma slice_app s a b c :
  0 <= a <= b -> b <= c -> c <= len s ->
  slice s a b ++ slice s b c = slice s a c.
Proof.
  intros Hab Hbc Hc.
  rewrite !slice_inrange by lia.
  replace (Z.to_nat (c - a)) with (Z.to_nat (b - a) + Z.to_nat (c - b))%nat by lia.
  rewrite firstn_plus, skipn_skipn.
  replace (Z.to_nat (b - a) + Z.to_nat a)%nat with (Z.to_nat b) by lia.
  reflexivity.
Qed.

(** A slice from the start is a prefix. *)
Lemma slice_prefix s b :
  0 <= b <= len s -> s = slice s 0 b ++ slice s b (len s).
Proof.
  intros Hb; rewrite slice_app by lia; symmetry; apply slice_all.
Qed.
End Slices.

(** ** Searching a text *)

Lemma startswith_spec (s p : str) :
  startswith s p = true <-> exists post, s = p ++ post.
Proof.
  revert s; induction p as [|x p IH]; intros [|y s]; cbn.
  - split; [intros _; now exists [] | reflexivity].
  - split; [intros _; now exists (y :: s) | reflexivity].
  - split; [discriminate | intros [post H]; discriminate].
  - rewrite andb_true_iff, Ascii.eqb_eq, IH; split.
    + intros [-> [post ->]]; now exists post.
    + intros [post H]; injection H as -> ->; split; [reflexivity | now exists post].
Qed.

Lemma occurs_at_range (s sub : str) (j : Z) :
  occurs_at s sub j -> 0 <= j /\ j + len sub <= len s.
Proof.
  intros (pre & post & -> & <-).
  rewrite !len_app.
  pose proof (len_nonneg pre); pose proof (len_nonneg post); lia.
Qed.

Lemma occurs_at_head (s sub : str) :
  occurs_at s sub 0 <-> startswith s sub = true.
Proof.
  rewrite startswith_spec; split.
  - intros (pre & post & -> & Hpre).
    destruct pre; [now exists post | unfold len in Hpre; cbn in Hpre; lia].
  - intros [post ->]; now exists [], post.
Qed.

Lemma occurs_at_cons (c : ascii) (s sub : str) (j : Z) :
  occurs_at (c :: s) sub j <-> (j = 0 /\ startswith (c :: s) sub = true) \/ occurs_at s sub (j - 1).
Proof.
  split.
  - intros (pre & post & H & Hpre).
    destruct pre as [|x pre].
    + left; split; [now rewrite <- Hpre |].
      apply occurs_at_head; exists [], post; now split.
    + right; injection H as -> ->; exists pre, post; split; [reflexivity |].
      unfold len in *; cbn [List.length] in Hpre; lia.
  - intros [[-> H] | (pre & post & -> & Hpre)].
    + now apply occurs_at_head.
    + exists (c :: pre), post; split; [reflexivity |].
      unfold len in *; cbn [List.length]; lia.
Qed.

Lemma last_index_None (s sub : str) (i : Z) :
  last_index s sub i = None -> forall k, ~ occurs_at s sub k.
Proof.
  revert i; induction s as [|c s IH]; intros i E k Hk.
  - cbn [last_index] in E; destruct (startswith [] sub) eqn:E0; [discriminate |].
    pose proof (occurs_at_range _ _ _ Hk) as Hr.
    change (len (@nil ascii)) with 0 in Hr.
    pose proof (len_nonneg sub).
    assert (k = 0) as -> by lia.
    apply occurs_at_head in Hk; congruence.
  - cbn [last_index] in E.
    destruct (last_index s sub (i + 1)) eqn:E1; [discriminate |].
    destruct (startswith (c :: s) sub) eqn:E2; [discriminate |].
    apply occurs_at_cons in Hk as [[_ Hk] | Hk]; [congruence |].
    eapply IH; eassumption.
Qed.

Lemma last_index_Some (s sub : str) (i j : Z) :
  last_index s sub i = Some j ->
  occurs_at s sub (j - i) /\ forall k, occurs_at s sub k -> k <= j - i.
Proof.
  revert i j; induction s as [|c s IH]; intros i j.
  - cbn [last_index]; destruct (startswith [] sub) eqn:E; [|discriminate].
    intros [= <-]; rewrite Z.sub_diag; split.
    + now apply occurs_at_head.
    + intros k Hk; apply occurs_at_range in Hk.
      pose proof (len_nonneg sub); change (len (@nil ascii)) with 0 in Hk; lia.
  - cbn [last_index]; destruct (last_index s sub (i + 1)) as [j'|] eqn:E.
    + intros [= <-]; destruct (IH _ _ E) as [Hocc Hmax].
      pose proof (occurs_at_range _ _ _ Hocc) as Hr.
      split.
      * apply occurs_at_cons; right.
        now replace (j' - i - 1) with (j' - (i + 1)) by lia.
      * intros k [[-> _] | Hk]%occurs_at_cons; [lia | apply Hmax in Hk; lia].
    + destruct (startswith (c :: s) sub) eqn:E'; [|discriminate].
      intros [= <-]; rewrite Z.sub_diag; split.
      * now apply occurs_at_head.
      * intros k [[-> _] | Hk]%occurs_at_cons; [lia |].
        exfalso; exact (last_index_None _ _ _ E _ Hk).
Qed.

(** [rfind] returns the last occurrence, and [-1] exactly when there is none. *)
Lemma rfind_found (s sub : str) (k : Z) :
  occurs_at s sub k ->
  occurs_at s sub (rfind s sub) /\ k <= rfind s sub /\
  forall k', occurs_at s sub k' -> k' <= rfind s sub.
Proof.
  intros Hk; unfold rfind.
  destruct (last_index s sub 0) as [j|] eqn:E.
  - apply last_index_Some in E as [Hocc Hmax].
    rewrite Z.sub_0_r in Hocc.
    split; [assumption |].
    split; [specialize (Hmax _ Hk); lia |].
    intros k' Hk'; specialize (Hmax _ Hk'); lia.
  - exfalso; exact (last_index_None _ _ _ E _ Hk).
Qed.


Lemma rfind_range (s sub : str) :
  rfind s sub = -1 \/ (0 <= rfind s sub /\ rfind s sub + len sub <= len s).
Proof.
  unfold rfind; destruct (last_index s sub 0) as [j|] eqn:E; [right | now left].
  apply last_index_Some in E as [Hocc _]; rewrite Z.sub_0_r in Hocc.
  exact (occurs_at_range _ _ _ Hocc).
Qed.

(** ** The end of a chunk *)

(** A chunk never ends past its naive boundary, and it is never empty. *)
Lemma chunk_end_bounds (content : str) (num_chunks chunk_size i pos : Z) :
  0 <= pos < len content -> 1 <= chunk_size ->
  pos < chunk_end content num_chunks chunk_size i pos
      <= naive_end content chunk_size pos.
Proof.
  intros Hpos Hcs; unfold chunk_end, naive_end.
  set (e := Z.min (pos + chunk_size) (len content)).
  assert (pos < e <= len content) as He by (unfold e; lia).
  destruct ((i <? num_chunks - 1) && (e <? len content)); [|lia].
  set (chunk := slice content pos e).
  assert (len chunk = e - pos) as Hlen by (apply len_slice; lia).
  destruct (rfind_range chunk period_newline) as [Hp | Hp];
    destruct (rfind_range chunk newline_newline) as [Hn | Hn];
    change (len period_newline) with 2 in *;
    change (len newline_newline) with 2 in *;
    destruct (Z.eqb_spec (Z.max (rfind chunk period_newline)
                                (rfind chunk newline_newline)) (-1));
    cbn [negb]; lia.
Qed.

(** ** The chunking loop, by the ranges it cuts *)

Lemma for_loop_spans (self : ChunkProcessor) (content : str)
    (num_chunks chunk_size : Z) (indices : list Z) (st : loop_state) :
  let l := spans content num_chunks chunk_size indices (current_pos st) in
  for_loop self content num_chunks chunk_size indices st =
    {| chunks_info := chunks_info st ++ map (info_of self content) l;
       current_pos := last_end (current_pos st) l;
       total_chunk_lines :=
         total_chunk_lines st + sum_lines (map (info_of self content) l) |}.
Proof.
  revert st; induction indices as [|i rest IH]; intros [cs pos tot]; cbn [for_loop spans].
  - cbn; now rewrite app_nil_r, Z.add_0_r.
  - cbn [current_pos chunks_info total_chunk_lines].
    destruct (len content <=? pos).
    + cbn; now rewrite app_nil_r, Z.add_0_r.
    + rewrite IH; unfold loop_body.
      cbn [current_pos chunks_info total_chunk_lines map last_end fold_left
           sum_lines fold_right span_end snd].
      rewrite <- app_assoc; cbn [app].
      f_equal.
      unfold sum_lines, info_of, span_start, span_end; cbn [lines fst snd]; lia.
Qed.

Lemma spans_length (content : str) (num_chunks chunk_size : Z) (indices : list Z) (pos : Z) :
  (List.length (spans content num_chunks chunk_size indices pos) <= List.length indices)%nat.
Proof.
  revert pos; induction indices as [|i rest IH]; intros pos; cbn [spans]; [reflexivity |].
  destruct (len content <=? pos); cbn [List.length]; [lia |].
  specialize (IH (chunk_end content num_chunks chunk_size i pos)); lia.
Qed.

Lemma spans_chain (content : str) (num_chunks chunk_size : Z) (indices : list Z) (pos : Z) :
  0 <= pos -> (pos < len content -> 1 <= chunk_size) ->
  chain (len content) chunk_size pos (spans content num_chunks chunk_size indices pos).
Proof.
  revert pos; induction indices as [|i rest IH]; intros pos Hpos Hcs; cbn [spans chain];
    [exact I |].
  destruct (Z.leb_spec (len content) pos); cbn [chain]; [exact I |].
  pose proof (chunk_end_bounds content num_chunks chunk_size i pos
                (conj Hpos H) (Hcs H)) as Hb.
  unfold naive_end in Hb; unfold span_start, span_end; cbn [fst snd].
  repeat split; try lia.
  apply IH; [lia | intros _; exact (Hcs H)].
Qed.

(** The loop leaves early only at the end of the text. *)
Lemma spans_stop (content : str) (num_chunks chunk_size : Z) (indices : list Z) (pos : Z) :
  List.length (spans content num_chunks chunk_size indices pos) = List.length indices \/
  len content <= last_end pos (spans content num_chunks chunk_size indices pos).
Proof.
  revert pos; induction indices as [|i rest IH]; intros pos; cbn [spans]; [now left |].
  destruct (Z.leb_spec (len content) pos); [right; exact H |].
  cbn [List.length last_end fold_left].
  destruct (IH (chunk_end content num_chunks chunk_size i pos)) as [E | E];
    [left; now rewrite E | right; exact E].
Qed.

Lemma chain_last_end (n cs pos : Z) (l : list span) :
  chain n cs pos l -> pos <= n ->
  pos <= last_end pos l <= n /\ last_end pos l <= pos + cs * len l.
Proof.
  revert pos; induction l as [|sp l IH]; intros pos Hc Hn.
  - cbn; change (len (@nil span)) with 0; lia.
  - destruct Hc as (Hs & Hlt & Hle & Hen & Hc).
    cbn [last_end fold_left]; specialize (IH _ Hc Hen).
    fold (last_end (span_end sp) l).
    replace (len (sp :: l)) with (1 + len l)
      by (unfold len; cbn [List.length]; lia).
    nia.
Qed.

(** The chunks of a chain, concatenated, are the text between its ends. *)
Lemma chain_concat (self : ChunkProcessor) (text : str) (cs pos : Z) (l : list span) :
  0 <= pos <= len text -> chain (len text) cs pos l ->
  List.concat (map content (map (info_of self text) l)) = slice text pos (last_end pos l).
Proof.
  revert pos; induction l as [|sp l IH]; intros pos Hpos Hc.
  - cbn; symmetry; now apply slice_empty.
  - destruct Hc as (Hs & Hlt & Hle & Hen & Hc).
    cbn [map List.concat last_end fold_left]; fold (last_end (span_end sp) l).
    pose proof (chain_last_end _ _ _ _ Hc Hen).
    rewrite (IH (span_end sp)) by (assumption || lia).
    unfold info_of at 1; cbn [content]; rewrite Hs.
    apply slice_app; lia.
Qed.

(** Each chunk records its own size and line count. *)
Lemma chain_chars (self : ChunkProcessor) (text : str) (cs pos : Z) (l : list span) :
  0 <= pos -> chain (len text) cs pos l ->
  Forall (fun c => 1 <= chars c <= cs /\ chars c = len (content c) /\
                   lines c = count (content c) newline)
         (map (info_of self text) l).
Proof.
  revert pos; induction l as [|sp l IH]; intros pos Hpos Hc; cbn [map]; constructor.
  - destruct Hc as (Hs & Hlt & Hle & Hen & _).
    unfold info_of; cbn [chars content lines].
    rewrite len_slice by lia; repeat split; lia.
  - destruct Hc as (Hs & Hlt & Hle & Hen & Hc); apply (IH (span_end sp)); [lia | exact Hc].
Qed.

(** ** Ceilings *)

Lemma ceil_div_zero (a : Z) : ceil_div a 0 = Raise ZeroDivisionError.
Proof. reflexivity. Qed.

(** For a positive divisor the ceiling is the least [c] with [a <= c * b]. *)
Lemma ceil_div_pos (a b c : Z) :
  0 < b -> ceil_div a b = Return c -> a <= c * b /\ (c - 1) * b < a.
Proof.
  intros Hb; unfold ceil_div.
  destruct (Z.eqb_spec b 0); [lia |].
  intros [= <-].
  pose proof (Z.div_mod (- a) b n).
  pose proof (Z.mod_pos_bound (- a) b Hb).
  nia.
Qed.

Lemma ceil_div_returns (a b : Z) : b <> 0 -> exists c, ceil_div a b = Return c.
Proof.
  intros Hb; unfold ceil_div; destruct (Z.eqb_spec b 0); [contradiction | eauto].
Qed.

(** A non-negative count over a negative limit asks for no chunk. *)
Lemma ceil_div_neg (a b c : Z) :
  0 <= a -> b < 0 -> ceil_div a b = Return c -> c <= 0.
Proof.
  intros Ha Hb; unfold ceil_div.
  destruct (Z.eqb_spec b 0); [lia |].
  intros [= <-].
  pose proof (Z.div_mod (- a) b n).
  pose proof (Z.mod_neg_bound (- a) b Hb).
  nia.
Qed.

Lemma estimate_tokens_nonneg (self : ChunkProcessor) (t : str) :
  0 <= estimate_tokens self t.
Proof. apply len_nonneg. Qed.

(** ** The run as a whole *)

Lemma split_plan (self : ChunkProcessor) (content : str) (num_chunks chunk_size : Z) :
  ceil_div (len content) num_chunks = Return chunk_size ->
  split self content num_chunks =
    Return {| chunks_info := map (info_of self content) (plan content num_chunks chunk_size);
              current_pos := last_end 0 (plan content num_chunks chunk_size);
              total_chunk_lines :=
                sum_lines (map (info_of self content) (plan content num_chunks chunk_size)) |}.
Proof.
  intros E; unfold split; rewrite E; cbn [bind].
  now rewrite for_loop_spans.
Qed.

(** A call returns exactly when both divisions are defined, and then it
    returns the chunks of the plan. *)
Lemma process_file_Return (self : ChunkProcessor) (content : str)
    (num_chunks : option Z) (r : report) :
  process_file self content num_chunks = Return r <->
  exists m cs,
    chunks_needed self content num_chunks = Return m /\
    ceil_div (len content) m = Return cs /\
    r = {| returned := map (info_of self content) (plan content m cs);
           stderr := validate (count content newline)
                       (sum_lines (map (info_of self content) (plan content m cs))) |}.
Proof.
  unfold process_file; split.
  - destruct (chunks_needed self content num_chunks) as [m|e] eqn:Em; [|discriminate].
    cbn [bind].
    destruct (ceil_div (len content) m) as [cs|e] eqn:Ec.
    + rewrite (split_plan _ _ _ _ Ec); cbn [bind chunks_info total_chunk_lines].
      intros [= <-]; now exists m, cs.
    + unfold split; rewrite Ec; discriminate.
  - intros (m & cs & -> & Ec & ->); cbn [bind].
    now rewrite (split_plan _ _ _ _ Ec).
Qed.

Lemma range_nonpos (n : Z) : n <= 0 -> range n = [].
Proof. intros H; unfold range; now replace (Z.to_nat n) with 0%nat by lia. Qed.

Lemma length_range (n : Z) : len (range n) = Z.max 0 n.
Proof. unfold range, len; rewrite length_map, length_seq; lia. Qed.

(** The plan of a run is a chain from the start of the text. *)
Lemma plan_chain (content : str) (m cs : Z) :
  ceil_div (len content) m = Return cs ->
  chain (len content) cs 0 (plan content m cs).
Proof.
  intros Ec; unfold plan.
  destruct (Z.le_gt_cases m 0) as [Hm | Hm].
  - rewrite range_nonpos by assumption; exact I.
  - apply spans_chain; [lia |].
    intros HL; apply ceil_div_pos in Ec; [nia | lia].
Qed.

(** The chunks of a run, concatenated, are a prefix of the text: what is
    missing, if anything, is its end. *)
Lemma chunks_are_prefix (self : ChunkProcessor) (text : str)
    (num_chunks : option Z) (r : report) :
  process_file self text num_chunks = Return r ->
  exists stop, 0 <= stop <= len text /\
    List.concat (map content (returned r)) = slice text 0 stop /\
    text = List.concat (map content (returned r)) ++ slice text stop (len text).
Proof.
  intros (m & cs & _ & Ec & ->)%process_file_Return; cbn [returned].
  pose proof (plan_chain _ _ _ Ec) as Hc.
  pose proof (len_nonneg text) as HL.
  pose proof (chain_last_end _ _ _ _ Hc HL) as [Hstop _].
  exists (last_end 0 (plan text m cs)); split; [exact Hstop |].
  rewrite (chain_concat self text cs 0) by (assumption || lia).
  split; [reflexivity | now apply slice_prefix].
Qed.

(** ** Sample runs *)

Lemma default_processor_init :
  __init__ (sample_host 1) "claude-3-sonnet-20240229" None = Return default_processor.
Proof. reflexivity. Qed.

(** The sample processors are those that the constructor builds from a
    safety factor other than zero. *)
Lemma sample_init (name : string) (sf : num) (k : nat) :
  truthy sf = true ->
  __init__ (sample_host k) name (Some sf) = Return (sample name sf k).
Proof. intros H; unfold __init__, or_else; now rewrite H. Qed.

Lemma default_processor_limit : get_effective_limit default_processor = Return 100000.
Proof. vm_compute; reflexivity. Qed.

(** ** Coverage *)

(** C1.  The chunks of a run do not always cover the text: asked for two
    chunks of the twelve characters [a.\nbcdefghij], the loop ends the first
    chunk after the sentence (3 characters) and the second, last one at the
    naive boundary 3 + 6 = 9, so that the returned chunks are [a.\n] and
    [bcdefg]; the last three characters are in no chunk, the last chunk does
    not end at [len(text)], and the validation, which counts only line
    separators, reports nothing. *)
Theorem C1_last_chunk_stops_short :
  exists r,
    process_file default_processor short_sentence_text (Some 2) = Return r /\
    map content (returned r) = [text ("a." ++ nl); text "bcdefg"] /\
    List.concat (map content (returned r)) <> short_sentence_text /\
    List.concat (map content (returned r)) = slice short_sentence_text 0 9 /\
    len short_sentence_text = 12 /\
    stderr r = [].
Proof.
  eexists; split; [vm_compute; reflexivity |].
  cbn [returned stderr map content]; repeat split; try reflexivity.
  vm_compute; discriminate.
Qed.

(** ** A non-positive effective limit *)

(** C2, as stated, fails: with the safety factor -0.5 the effective limit of
    gpt-4 is -4096, yet a call that asks for one chunk raises nothing and
    returns that chunk; and with the effective limit 0 the exception raised
    is a [ZeroDivisionError], not a [ConfigurationError]. *)
Lemma C2_nonpositive_limit_counterexample :
  (get_effective_limit (sample "gpt-4" (Float (-0.5)) 1) = Return (-4096) /\
   exists c,
     process_file (sample "gpt-4" (Float (-0.5)) 1) (text "ab") (Some 1) =
       Return {| returned := [c]; stderr := [] |} /\
     content c = text "ab") /\
  (get_effective_limit (sample "gpt-3.5-turbo" (Float 0.0001220703125) 1) = Return 0 /\
   process_file (sample "gpt-3.5-turbo" (Float 0.0001220703125) 1) (text "ab") None
     <> Raise "ConfigurationError"%string).
Proof.
  split; split; try (vm_compute; reflexivity).
  - eexists; split; vm_compute; reflexivity.
  - vm_compute; discriminate.
Qed.

(** C2, amended.  When the effective limit is 0, the call raises
    [ZeroDivisionError] at the first division, before the loop, whatever the
    text and the requested count.  A negative effective limit is not
    rejected: the minimum it yields is at most 0, and the call goes on with
    the larger of it and the requested count. *)
Theorem C2_zero_limit_raises (self : ChunkProcessor) (text : str)
    (num_chunks : option Z) (limit : Z) :
  get_effective_limit self = Return limit -> limit <= 0 ->
  (limit = 0 -> process_file self text num_chunks = Raise ZeroDivisionError) /\
  (limit < 0 ->
   exists min_chunks, min_chunks <= 0 /\
     chunks_needed self text num_chunks =
       Return (match num_chunks with
               | None => min_chunks
               | Some n => Z.max n min_chunks
               end)).
Proof.
  intros El Hl; split.
  - intros ->; unfold process_file, chunks_needed; rewrite El; reflexivity.
  - intros Hneg; unfold chunks_needed; rewrite El; cbn [bind].
    destruct (ceil_div_returns (estimate_tokens self text) limit) as [mc Emc]; [lia |].
    rewrite Emc; cbn [bind]; exists mc; split.
    + eapply ceil_div_neg; [apply estimate_tokens_nonneg | exact Hneg | exact Emc].
    + destruct num_chunks as [n|]; [|reflexivity].
      destruct (Z.ltb_spec n mc); f_equal; lia.
Qed.

Lemma C2_zero_limit_raises_witness :
  process_file (sample "gpt-3.5-turbo" (Float 0.0001220703125) 1) (text "ab") None
    = Raise ZeroDivisionError.
Proof.
  apply (C2_zero_limit_raises
           (sample "gpt-3.5-turbo" (Float 0.0001220703125) 1) (text "ab") None 0).
  - vm_compute; reflexivity.
  - lia.
  - reflexivity.
Defined.

(** ** The empty text *)

(** A text without characters has no tokens under an encoder that spends
    its tokens on characters; then the call without a requested count
    raises [ZeroDivisionError], whatever the effective limit. *)
Lemma empty_text_raises (self : ChunkProcessor) (limit : Z) :
  tokenizer self [] = [] -> get_effective_limit self = Return limit ->
  process_file self [] None = Raise ZeroDivisionError.
Proof.
  intros Et El; unfold process_file, chunks_needed, estimate_tokens.
  rewrite Et, El; cbn [bind]; change (len (@nil Z)) with 0.
  unfold ceil_div at 1; destruct (limit =? 0); reflexivity.
Qed.

(** C4.  On the empty text a call without a requested count raises a
    division error: no token needs no chunk, and the chunk size is then the
    quotient of 0 by 0.  A call that asks for three chunks returns no chunk. *)
Theorem C4_empty_text_divides_by_zero :
  get_effective_limit default_processor = Return 100000 /\
  process_file default_processor (text "") None = Raise ZeroDivisionError /\
  process_file default_processor (text "") (Some 3) =
    Return {| returned := []; stderr := [] |}.
Proof. repeat split; vm_compute; reflexivity. Qed.

(** ** Unknown models *)

Lemma getitem_absent (d : list (string * Z)) (k : string) :
  ~ In k (map fst d) -> getitem d k = Raise KeyError.
Proof.
  induction d as [|[k' v] d IH]; cbn [getitem map fst In]; [reflexivity |].
  intros H; destruct (String.eqb_spec k' k) as [-> | _]; [tauto | apply IH; tauto].
Qed.

(** C7, as stated, fails: the effective limit of a model that the registry
    lacks raises [KeyError], not [ConfigurationError]. *)
Lemma C7_unknown_model_counterexample :
  ~ In "gpt-5"%string (map fst (context_limits (sample "gpt-5" (Float 0.5) 1))) /\
  get_effective_limit (sample "gpt-5" (Float 0.5) 1) = Raise KeyError /\
  get_effective_limit (sample "gpt-5" (Float 0.5) 1) <> Raise "ConfigurationError"%string.
Proof.
  split; [| split].
  - cbn; intros [H | [H | [H | []]]]; discriminate.
  - reflexivity.
  - discriminate.
Qed.

(** C7, amended.  For every model that the registry lacks, the effective
    limit raises [KeyError], and so does every call of [process_file]: no
    chunk is produced. *)
Theorem C7_unknown_model_KeyError (self : ChunkProcessor) :
  ~ In (model self) (map fst (context_limits self)) ->
  get_effective_limit self = Raise KeyError /\
  forall (text : str) (num_chunks : option Z),
    process_file self text num_chunks = Raise KeyError.
Proof.
  intros H; assert (get_effective_limit self = Raise KeyError) as E.
  { unfold get_effective_limit; now rewrite (getitem_absent _ _ H). }
  split; [exact E |].
  intros text num_chunks; unfold process_file, chunks_needed; now rewrite E.
Qed.

Lemma C7_unknown_model_KeyError_witness :
  get_effective_limit (sample "gpt-5" (Float 0.5) 1) = Raise KeyError /\
  forall (text : str) (num_chunks : option Z),
    process_file (sample "gpt-5" (Float 0.5) 1) text num_chunks = Raise KeyError.
Proof.
  apply (C7_unknown_model_KeyError (sample "gpt-5" (Float 0.5) 1)).
  cbn; intros [H | [H | [H | []]]]; discriminate.
Defined.

(** ** The number of chunks *)

Lemma chunks_needed_Return (self : ChunkProcessor) (text : str)
    (num_chunks : option Z) (limit min_chunks : Z) :
  get_effective_limit self = Return limit ->
  ceil_div (estimate_tokens self text) limit = Return min_chunks ->
  chunks_needed self text num_chunks =
    Return (match num_chunks with
            | None => min_chunks
            | Some n => Z.max n min_chunks
            end).
Proof.
  intros El Ec; unfold chunks_needed; rewrite El; cbn [bind]; rewrite Ec; cbn [bind].
  destruct num_chunks as [n|]; [|reflexivity].
  destruct (Z.ltb_spec n min_chunks); f_equal; lia.
Qed.

Lemma plan_length (content : str) (m cs : Z) : len (plan content m cs) <= Z.max 0 m.
Proof.
  rewrite <- length_range; unfold plan, len.
  pose proof (spans_length content m cs (range m) 0); lia.
Qed.

(** A plan that cuts fewer chunks than asked for has reached the end of the
    text. *)
Lemma plan_stop (content : str) (m cs : Z) :
  ceil_div (len content) m = Return cs ->
  len (plan content m cs) = Z.max 0 m \/
  last_end 0 (plan content m cs) = len content.
Proof.
  intros Ec; unfold plan.
  destruct (spans_stop content m cs (range m) 0) as [E | E].
  - left; rewrite <- length_range; unfold len; now rewrite E.
  - right; pose proof (plan_chain _ _ _ Ec) as Hc.
    pose proof (chain_last_end _ _ _ _ Hc (len_nonneg content)) as [H _].
    unfold plan in H; lia.
Qed.




(** ** Boundary adjustment *)

(** What [rfind] returns: [-1] when there is no occurrence, and the last
    occurrence otherwise. *)
Lemma rfind_cases (s sub : str) :
  (rfind s sub = -1 /\ forall k, ~ occurs_at s sub k) \/
  (0 <= rfind s sub /\ occurs_at s sub (rfind s sub) /\
   forall k, occurs_at s sub k -> k <= rfind s sub).
Proof.
  unfold rfind; destruct (last_index s sub 0) as [j|] eqn:E.
  - right; apply last_index_Some in E as [Hocc Hmax]; rewrite Z.sub_0_r in Hocc.
    pose proof (occurs_at_range _ _ _ Hocc).
    repeat split; try (assumption || lia).
    intros k Hk; specialize (Hmax _ Hk); lia.
  - left; split; [reflexivity | exact (last_index_None _ _ _ E)].
Qed.

(** C5.  For a chunk that is not the last of the plan and whose naive
    boundary lies before the end of the text: when one of the two markers
    occurs in the proposed chunk, the chunk ends two characters past [p],
    the later of the last occurrences of the markers ([p] is an occurrence
    of one of them, and no occurrence of either lies after it); when neither
    occurs, the chunk ends at the naive boundary. *)
Theorem C5_boundary_adjustment (content : str) (num_chunks chunk_size i pos : Z) :
  i < num_chunks - 1 ->
  naive_end content chunk_size pos < len content ->
  let chunk := slice content pos (naive_end content chunk_size pos) in
  let marked k := occurs_at chunk period_newline k \/ occurs_at chunk newline_newline k in
  ((exists k, marked k) ->
   exists p,
     p = Z.max (rfind chunk period_newline) (rfind chunk newline_newline) /\
     marked p /\ (forall k, marked k -> k <= p) /\
     chunk_end content num_chunks chunk_size i pos = pos + p + 2) /\
  ((forall k, ~ marked k) ->
   chunk_end content num_chunks chunk_size i pos = naive_end content chunk_size pos).
Proof.
  intros Hi Hn chunk marked; unfold chunk_end; fold (naive_end content chunk_size pos).
  fold chunk.
  destruct (Z.ltb_spec i (num_chunks - 1)); [|lia].
  destruct (Z.ltb_spec (naive_end content chunk_size pos) (len content)); [|lia].
  cbn [andb].
  destruct (rfind_cases chunk period_newline) as [[Ep Hp] | (Ep & Hp & Mp)];
    destruct (rfind_cases chunk newline_newline) as [[En Hn'] | (En & Hn' & Mn)];
    split.
  - intros [k [Hk | Hk]]; [elim (Hp k Hk) | elim (Hn' k Hk)].
  - intros _; rewrite Ep, En; reflexivity.
  - intros _; exists (rfind chunk newline_newline).
    rewrite Ep, Z.max_r by lia.
    split; [reflexivity |]. split; [now right |].
    split; [intros k [Hk | Hk]; [elim (Hp k Hk) | now apply Mn] |].
    destruct (Z.eqb_spec (rfind chunk newline_newline) (-1)); [lia | reflexivity].
  - intros H'; elim (H' _ (or_intror Hn')).
  - intros _; exists (rfind chunk period_newline).
    rewrite En, Z.max_l by lia.
    split; [reflexivity |]. split; [now left |].
    split; [intros k [Hk | Hk]; [now apply Mp | elim (Hn' k Hk)] |].
    destruct (Z.eqb_spec (rfind chunk period_newline) (-1)); [lia | reflexivity].
  - intros H'; elim (H' _ (or_introl Hp)).
  - intros _; exists (Z.max (rfind chunk period_newline) (rfind chunk newline_newline)).
    split; [reflexivity |].
    split; [destruct (Z.max_spec (rfind chunk period_newline) (rfind chunk newline_newline))
              as [[_ ->] | [_ ->]]; [now right | now left] |].
    split; [intros k [Hk | Hk]; [apply Mp in Hk | apply Mn in Hk]; lia |].
    destruct (Z.eqb_spec (Z.max (rfind chunk period_newline)
                                (rfind chunk newline_newline)) (-1)); [lia | reflexivity].
  - intros H'; elim (H' _ (or_introl Hp)).
Qed.

Lemma C5_boundary_adjustment_witness :
  chunk_end short_sentence_text 2 6 0 0 = 0 + 1 + 2.
Proof.
  destruct (C5_boundary_adjustment short_sentence_text 2 6 0 0) as [Hmoved _].
  - lia.
  - vm_compute; reflexivity.
  - destruct Hmoved as (p & Ep & _ & _ & E).
    + exists 1; left; exists (text "a"), (text "bcd"); split; reflexivity.
    + rewrite E, Ep; vm_compute; reflexivity.
Defined.

(** Every span of a plan ends where [chunk_end] says. *)
Lemma spans_chunk_end (content : str) (num_chunks chunk_size : Z)
    (indices : list Z) (pos : Z) (sp : span) :
  In sp (spans content num_chunks chunk_size indices pos) ->
  span_end sp = chunk_end content num_chunks chunk_size (fst sp) (span_start sp).
Proof.
  revert pos; induction indices as [|i rest IH]; intros pos; cbn [spans]; [intros [] |].
  destruct (len content <=? pos); [intros [] |].
  intros [<- | H]; [reflexivity | exact (IH _ H)].
Qed.

(** ** Line count validation *)

Lemma split_Return (self : ChunkProcessor) (content : str) (m : Z) (st : loop_state) :
  split self content m = Return st ->
  exists cs, ceil_div (len content) m = Return cs /\
    chunks_info st = map (info_of self content) (plan content m cs) /\
    total_chunk_lines st = sum_lines (chunks_info st).
Proof.
  destruct (ceil_div (len content) m) as [cs|e] eqn:Ec.
  - rewrite (split_plan _ _ _ _ Ec); intros [= <-]; now exists cs.
  - unfold split; rewrite Ec; discriminate.
Qed.

(** C6.  Once the loop has ended, the call returns, and it returns the list
    of chunks that the loop built, whatever the line counts.  When the line
    count of the text differs from the sum of the line counts of these
    chunks, stderr holds one warning with the difference (original minus
    sum); when they are equal, stderr holds nothing.  The line count of a
    chunk is the number of line separators of its content. *)
Theorem C6_validation_warns_and_returns (self : ChunkProcessor) (text : str)
    (num_chunks : option Z) (planned : Z) (st : loop_state) :
  chunks_needed self text num_chunks = Return planned ->
  split self text planned = Return st ->
  exists r,
    process_file self text num_chunks = Return r /\
    returned r = chunks_info st /\
    Forall (fun c => lines c = count (content c) newline) (returned r) /\
    (count text newline <> sum_lines (returned r) ->
     stderr r =
       [ ("Warning: Lost "
            ++ str_of_int (count text newline - sum_lines (returned r))
            ++ " lines during chunking!")%string ]) /\
    (count text newline = sum_lines (returned r) -> stderr r = []).
Proof.
  intros Em Es; unfold process_file; rewrite Em; cbn [bind]; rewrite Es; cbn [bind].
  eexists; split; [reflexivity |]; cbn [returned stderr].
  destruct (split_Return _ _ _ _ Es) as (cs & Ec & Ech & ->).
  split; [reflexivity |]. split.
  - rewrite Ech.
    pose proof (chain_chars self text cs 0 (plan text planned cs) (Z.le_refl 0)
                  (plan_chain _ _ _ Ec)) as H.
    eapply Forall_impl; [|exact H]; cbn; intros c (_ & _ & Hl); exact Hl.
  - unfold validate.
    destruct (Z.eqb_spec (count text newline) (sum_lines (chunks_info st)));
      cbn [negb]; split; intros H; (reflexivity || contradiction).
Qed.

Lemma C6_validation_warns_and_returns_witness :
  exists r,
    process_file default_processor five_lines_text (Some 2) = Return r /\
    map content (returned r) =
      [text ("a." ++ nl); text ("bc" ++ nl ++ "de" ++ nl ++ "fg")] /\
    stderr r = ["Warning: Lost 2 lines during chunking!"%string].
Proof.
  destruct (C6_validation_warns_and_returns default_processor five_lines_text (Some 2) 2
              {| chunks_info :=
                   map (info_of default_processor five_lines_text)
                     [(0, (0, 3)); (1, (3, 11))];
                 current_pos := 11;
                 total_chunk_lines := 3 |})
    as (r & Er & Eret & _ & Hwarn & _).
  - vm_compute; reflexivity.
  - vm_compute; reflexivity.
  - exists r; split; [exact Er |].
    split; [rewrite Eret; vm_compute; reflexivity |].
    rewrite Hwarn; rewrite Eret; [vm_compute; reflexivity | vm_compute; discriminate].
Defined.

(** ** The safety factor *)

Lemma truthy_zero :
  truthy (Int 0) = false /\ truthy (Float 0) = false /\ truthy (Float (-0)) = false.
Proof. repeat split; reflexivity. Qed.

Lemma truthy_Int (z : Z) : truthy (Int z) = true <-> z <> 0.
Proof. cbn; destruct (Z.eqb_spec z 0); cbn; split; (congruence || discriminate || tauto). Qed.

Lemma truthy_samples :
  truthy (Float (-0.5)) = true /\ truthy (Float 1.5) = true /\
  truthy (Int (-2)) = true /\ truthy (Int 3) = true /\ truthy (Float nan) = true.
Proof. repeat split; reflexivity. Qed.

(** C9.  A safety factor that is zero (falsy: [0], [0.0], [-0.0]) is
    dropped: the processor is built as if none had been given, with the
    value of CHUNK_SAFETY_FACTOR when the environment sets it and 0.5
    otherwise, and no error is raised on account of the zero.  Every other
    safety factor, negative or above 1 as well, is stored as given, and the
    environment is not consulted. *)
Theorem C9_zero_safety_factor_dropped (h : host) (name : string) (sf : num) :
  (truthy sf = false ->
   __init__ h name (Some sf) = __init__ h name None /\
   (getenv h "CHUNK_SAFETY_FACTOR" = None ->
    exists self, __init__ h name (Some sf) = Return self /\
                 safety_factor self = Float DEFAULT_SAFETY_FACTOR) /\
   (forall s f, getenv h "CHUNK_SAFETY_FACTOR" = Some s -> float_of_str h s = Some f ->
    exists self, __init__ h name (Some sf) = Return self /\
                 safety_factor self = Float f)) /\
  (truthy sf = true ->
   exists self, __init__ h name (Some sf) = Return self /\
                safety_factor self = sf /\ model self = name).
Proof.
  split; intros Hsf; unfold __init__, or_else; rewrite Hsf.
  - split; [reflexivity |]; unfold env_safety_factor; split.
    + intros ->; cbn [bind]; eexists; split; reflexivity.
    + intros s f -> ->; cbn [bind]; eexists; split; reflexivity.
  - cbn [bind]; eexists; repeat split.
Qed.

Lemma C9_zero_safety_factor_dropped_witness :
  (exists self, __init__ (sample_host 1) "gpt-4" (Some (Float 0)) = Return self /\
                safety_factor self = Float 0.5) /\
  (exists self, __init__ (sample_host 1) "gpt-4" (Some (Float (-0.5))) = Return self /\
                safety_factor self = Float (-0.5)).
Proof.
  split.
  - destruct (C9_zero_safety_factor_dropped (sample_host 1) "gpt-4" (Float 0))
      as [Hzero _].
    destruct (Hzero eq_refl) as (_ & Hdefault & _).
    exact (Hdefault eq_refl).
  - destruct (C9_zero_safety_factor_dropped (sample_host 1) "gpt-4" (Float (-0.5)))
      as [_ Hkept].
    destruct (Hkept eq_refl) as (self & E & Hsf & _).
    exists self; split; assumption.
Defined.

(** ** Forward progress *)

Lemma plan_chunk_ends (content : str) (m cs : Z) :
  Forall (fun sp => span_end sp = chunk_end content m cs (fst sp) (span_start sp))
         (plan content m cs).
Proof. apply Forall_forall; intros sp; apply spans_chunk_end. Qed.



(** ** Monotonicity in the requested count *)

(** The planned count enters [chunk_end] only through the test for the last
    chunk. *)
Lemma chunk_end_not_last (content : str) (m1 m2 cs i pos : Z) :
  i < m1 - 1 -> i < m2 - 1 ->
  chunk_end content m1 cs i pos = chunk_end content m2 cs i pos.
Proof.
  intros H1 H2; unfold chunk_end.
  destruct (Z.ltb_spec i (m1 - 1)); [|lia].
  destruct (Z.ltb_spec i (m2 - 1)); [|lia].
  reflexivity.
Qed.

(** With the same chunk size, a longer plan cuts at least as many chunks:
    the two loops agree up to the last chunk of the shorter plan, and both
    cut a chunk there. *)
Lemma spans_longer_plan (content : str) (cs : Z) (d k a : nat) (pos : Z) :
  (List.length (spans content (Z.of_nat (a + k)) cs (map Z.of_nat (seq a k)) pos)
   <= List.length (spans content (Z.of_nat (a + k + d)) cs
                     (map Z.of_nat (seq a (k + d))) pos))%nat.
Proof.
  revert a pos; induction k as [|k IH]; intros a pos; [cbn; lia |].
  cbn [Nat.add seq map spans].
  destruct (len content <=? pos); [reflexivity |].
  cbn [List.length]; apply le_n_S.
  destruct k as [|k]; [cbn; lia |].
  rewrite (chunk_end_not_last content (Z.of_nat (a + S (S k)))
             (Z.of_nat (a + S (S k) + d)) cs (Z.of_nat a) pos) by lia.
  specialize (IH (S a) (chunk_end content (Z.of_nat (a + S (S k) + d)) cs (Z.of_nat a) pos)).
  replace (S a + S k)%nat with (a + S (S k))%nat in IH by lia.
  exact IH.
Qed.

Lemma plan_longer (content : str) (cs m1 m2 : Z) :
  0 <= m1 <= m2 -> len (plan content m1 cs) <= len (plan content m2 cs).
Proof.
  intros Hm; unfold plan, range, len.
  pose proof (spans_longer_plan content cs (Z.to_nat (m2 - m1)) (Z.to_nat m1) 0 0) as H.
  cbn [Nat.add] in H.
  replace (Z.of_nat (Z.to_nat m1)) with m1 in H by lia.
  replace (Z.of_nat (Z.to_nat m1 + Z.to_nat (m2 - m1))) with m2 in H by lia.
  replace (Z.to_nat m1 + Z.to_nat (m2 - m1))%nat with (Z.to_nat m2) in H by lia.
  lia.
Qed.

(** Planning more chunks never yields fewer. *)
Lemma plan_mono (content : str) (m1 m2 cs1 cs2 : Z) :
  m1 <= m2 ->
  ceil_div (len content) m1 = Return cs1 ->
  ceil_div (len content) m2 = Return cs2 ->
  len (plan content m1 cs1) <= len (plan content m2 cs2).
Proof.
  intros Hm E1 E2.
  pose proof (plan_length content m1 cs1) as Hlen1.
  pose proof (len_nonneg (plan content m2 cs2)) as Hpos2.
  destruct (Z.le_gt_cases m1 0) as [Hm1 | Hm1]; [lia |].
  pose proof (len_nonneg content) as HL.
  pose proof (ceil_div_pos _ _ _ Hm1 E1) as [H1 H1'].
  pose proof (ceil_div_pos _ _ _ (Z.lt_le_trans _ _ _ Hm1 Hm) E2) as [H2 H2'].
  destruct (Z.eq_dec cs1 cs2) as [-> | Hcs]; [apply plan_longer; lia |].
  assert (0 <= cs1) as Hcs1 by nia.
  assert (cs2 < cs1) as Hlt.
  { destruct (Z.lt_ge_cases cs2 cs1) as [H | H]; [exact H | exfalso].
    assert (cs1 * m1 <= cs1 * m2) by nia.
    assert (cs1 * m2 <= (cs2 - 1) * m2) by nia.
    lia. }
  assert (cs2 * m1 < len content) as Hshort by nia.
  destruct (plan_stop _ _ _ E2) as [E | E]; [lia |].
  pose proof (chain_last_end _ _ _ _ (plan_chain _ _ _ E2) HL) as [_ Hend].
  rewrite E in Hend; nia.
Qed.

Lemma chunks_needed_Some (self : ChunkProcessor) (text : str) (n m : Z) :
  chunks_needed self text (Some n) = Return m ->
  exists limit min_chunks,
    get_effective_limit self = Return limit /\
    ceil_div (estimate_tokens self text) limit = Return min_chunks /\
    m = Z.max n min_chunks.
Proof.
  unfold chunks_needed.
  destruct (get_effective_limit self) as [limit|] eqn:El; [|discriminate].
  cbn [bind].
  destruct (ceil_div (estimate_tokens self text) limit) as [mc|] eqn:Ec; [|discriminate].
  cbn [bind]; intros [= <-]; exists limit, mc.
  split; [first [reflexivity | assumption] |].
  split; [first [reflexivity | assumption] |].
  destruct (Z.ltb_spec n mc); lia.
Qed.

(** C8.  For one processor and one text, a call that asks for more chunks
    returns at least as many chunks as a call that asks for fewer, early
    stops included; and with a positive effective limit and a requested
    count of at least 1, both calls return. *)
Theorem C8_requested_count_monotone (self : ChunkProcessor) (text : str) (n1 n2 : Z) :
  n1 <= n2 ->
  (forall r1 r2,
     process_file self text (Some n1) = Return r1 ->
     process_file self text (Some n2) = Return r2 ->
     len (returned r1) <= len (returned r2)) /\
  (forall limit,
     get_effective_limit self = Return limit -> 0 < limit -> 1 <= n1 ->
     exists r1 r2,
       process_file self text (Some n1) = Return r1 /\
       process_file self text (Some n2) = Return r2).
Proof.
  intros Hn; split.
  - intros r1 r2 (m1 & cs1 & Em1 & Ec1 & ->)%process_file_Return
                 (m2 & cs2 & Em2 & Ec2 & ->)%process_file_Return.
    cbn [returned].
    apply chunks_needed_Some in Em1 as (l1 & mc1 & El1 & Emc1 & ->).
    apply chunks_needed_Some in Em2 as (l2 & mc2 & El2 & Emc2 & ->).
    rewrite El1 in El2; injection El2 as <-.
    rewrite Emc1 in Emc2; injection Emc2 as <-.
    pose proof (plan_mono text (Z.max n1 mc1) (Z.max n2 mc1) cs1 cs2) as H.
    unfold len in *; rewrite !length_map; apply H; (assumption || lia).
  - intros limit El Hl Hn1.
    destruct (ceil_div_returns (estimate_tokens self text) limit) as [mc Emc]; [lia |].
    pose proof (chunks_needed_Return self text (Some n1) _ _ El Emc) as E1.
    pose proof (chunks_needed_Return self text (Some n2) _ _ El Emc) as E2.
    destruct (ceil_div_returns (len text) (Z.max n1 mc)) as [cs1 Ec1]; [lia |].
    destruct (ceil_div_returns (len text) (Z.max n2 mc)) as [cs2 Ec2]; [lia |].
    eexists; eexists; split; apply process_file_Return;
      [exists (Z.max n1 mc), cs1 | exists (Z.max n2 mc), cs2]; repeat split; assumption.
Qed.

Lemma C8_requested_count_monotone_witness :
  exists r1 r2,
    process_file default_processor five_lines_text (Some 2) = Return r1 /\
    process_file default_processor five_lines_text (Some 3) = Return r2 /\
    len (returned r1) <= len (returned r2).
Proof.
  destruct (C8_requested_count_monotone default_processor five_lines_text 2 3) as [Hle Hret];
    [lia |].
  destruct (Hret 100000) as (r1 & r2 & E1 & E2); [vm_compute; reflexivity | lia | lia |].
  exists r1, r2; split; [exact E1 |]; split; [exact E2 |].
  exact (Hle r1 r2 E1 E2).
Defined.

(** * Further properties of the chunking *)

(** ** What the chunks hold *)

Lemma count_app (s t : str) (c : ascii) : count (s ++ t) c = count s c + count t c.
Proof. induction s as [|x s IH]; cbn [app count]; [reflexivity | rewrite IH; lia]. Qed.

Lemma count_nonneg (s : str) (c : ascii) : 0 <= count s c.
Proof. induction s as [|x s IH]; cbn [count]; [lia | destruct (Ascii.eqb x c); lia]. Qed.

Lemma sum_lines_concat (l : list chunk_info) :
  Forall (fun c => lines c = count (content c) newline) l ->
  sum_lines l = count (List.concat (map content l)) newline.
Proof.
  induction 1 as [|c l Hc _ IH]; [reflexivity |].
  cbn [sum_lines fold_right map List.concat]; rewrite count_app, <- IH, Hc; reflexivity.
Qed.

Lemma sum_chars_concat (l : list chunk_info) :
  Forall (fun c => chars c = len (content c)) l ->
  sum_chars l = len (List.concat (map content l)).
Proof.
  induction 1 as [|c l Hc _ IH]; [reflexivity |].
  cbn [sum_chars fold_right map List.concat]; rewrite len_app, <- IH, Hc; reflexivity.
Qed.

(** The chunks of a run, with the position at which the run stops. *)
Lemma run_stop (self : ChunkProcessor) (text : str) (num_chunks : option Z) (r : report) :
  process_file self text num_chunks = Return r ->
  exists stop, 0 <= stop <= len text /\
    List.concat (map content (returned r)) = slice text 0 stop /\
    sum_chars (returned r) = stop /\
    sum_lines (returned r) = count (slice text 0 stop) newline /\
    stderr r = validate (count text newline) (sum_lines (returned r)).
Proof.
  intros (m & cs & _ & Ec & ->)%process_file_Return; cbn [returned stderr].
  pose proof (plan_chain _ _ _ Ec) as Hc.
  pose proof (len_nonneg text) as HL.
  pose proof (chain_last_end _ _ _ _ Hc HL) as [Hstop _].
  pose proof (chain_chars self text cs 0 _ (Z.le_refl 0) Hc) as Hall.
  pose proof (chain_concat self text cs 0 _ (conj (Z.le_refl 0) HL) Hc) as Hcat.
  exists (last_end 0 (plan text m cs)); split; [exact Hstop |].
  split; [exact Hcat |].
  split; [| split; [| reflexivity]].
  - rewrite sum_chars_concat, Hcat, len_slice; [lia | lia | lia |].
    eapply Forall_impl; [|exact Hall]; cbn; tauto.
  - rewrite sum_lines_concat, Hcat; [reflexivity |].
    eapply Forall_impl; [|exact Hall]; cbn; tauto.
Qed.

(** X1.  The chunks that a call returns are consecutive pieces of the text
    from its start: concatenated in order they are the first [stop]
    characters of the text, where [stop] is the sum of their sizes; nothing
    is repeated, reordered or altered, and only the end of the text can be
    missing. *)
Theorem X1_chunks_are_leading_pieces (self : ChunkProcessor) (text : str)
    (num_chunks : option Z) (r : report) :
  process_file self text num_chunks = Return r ->
  0 <= sum_chars (returned r) <= len text /\
  List.concat (map content (returned r)) = slice text 0 (sum_chars (returned r)) /\
  text = List.concat (map content (returned r))
           ++ slice text (sum_chars (returned r)) (len text).
Proof.
  intros (stop & Hstop & Hcat & Hsum & _)%run_stop; rewrite Hsum.
  split; [exact Hstop |]. split; [exact Hcat |].
  rewrite Hcat; now apply slice_prefix.
Qed.

Lemma X1_chunks_are_leading_pieces_witness :
  exists r,
    process_file default_processor short_sentence_text (Some 2) = Return r /\
    sum_chars (returned r) = 9 /\
    short_sentence_text = List.concat (map content (returned r)) ++ text "hij".
Proof.
  assert (exists r, process_file default_processor short_sentence_text (Some 2) = Return r)
    as [r Hr] by (eexists; vm_compute; reflexivity).
  exists r; split; [exact Hr |].
  destruct (X1_chunks_are_leading_pieces _ _ _ _ Hr) as (_ & _ & Htext).
  assert (sum_chars (returned r) = 9) as E.
  { revert Hr; vm_compute; intros [= <-]; reflexivity. }
  split; [exact E |].
  rewrite E in Htext; exact Htext.
Defined.

(** X2.  The line count validation measures the part of the text that is in
    no chunk: the difference between the line count of the text and the sum
    of the line counts of the chunks is the number of line separators after
    the last chunk.  It is never negative, and stderr stays empty exactly
    when that rest holds no line separator: a rest without a line separator
    goes unreported. *)
Theorem X2_validation_counts_lost_tail (self : ChunkProcessor) (text : str)
    (num_chunks : option Z) (r : report) :
  process_file self text num_chunks = Return r ->
  let rest := slice text (sum_chars (returned r)) (len text) in
  count text newline - sum_lines (returned r) = count rest newline /\
  0 <= count text newline - sum_lines (returned r) /\
  (stderr r = [] <-> count rest newline = 0).
Proof.
  intros Hr rest.
  destruct (run_stop _ _ _ _ Hr) as (stop & Hstop & Hcat & Hsum & Hlines & Herr).
  assert (count text newline = sum_lines (returned r) + count rest newline) as E.
  { unfold rest; rewrite Hsum, Hlines, <- count_app, slice_app by lia.
    now rewrite slice_all. }
  pose proof (count_nonneg rest newline).
  split; [lia |]. split; [lia |].
  rewrite Herr; unfold validate.
  destruct (Z.eqb_spec (count text newline) (sum_lines (returned r))); cbn [negb];
    split; intros H'; try reflexivity; try lia; discriminate.
Qed.

Lemma X2_validation_counts_lost_tail_witness :
  exists r,
    process_file default_processor five_lines_text (Some 2) = Return r /\
    count five_lines_text newline - sum_lines (returned r) = 2.
Proof.
  assert (exists r, process_file default_processor five_lines_text (Some 2) = Return r)
    as [r Hr] by (eexists; vm_compute; reflexivity).
  exists r; split; [exact Hr |].
  destruct (X2_validation_counts_lost_tail _ _ _ _ Hr) as (E & _ & _).
  rewrite E; revert Hr; vm_compute; intros [= <-]; reflexivity.
Defined.

(** ** Texts without markers *)






(** ** A single chunk *)

(** X4.  When one chunk is planned for a non-empty text, the call returns
    exactly one chunk, written to chunks/chunk_1.txt, whose content is the
    whole text and whose sizes are those of the text; stderr stays empty. *)
Theorem X4_single_chunk_is_whole_text (self : ChunkProcessor) (text : str)
    (num_chunks : option Z) :
  text <> [] ->
  chunks_needed self text num_chunks = Return 1 ->
  process_file self text num_chunks =
    Return {| returned :=
                [ {| file := "chunks/chunk_1.txt"%string;
                     chars := len text;
                     tokens := estimate_tokens self text;
                     lines := count text newline;
                     content := text |} ];
              stderr := [] |}.
Proof.
  intros Hne Em.
  assert (1 <= len text) as HL
    by (destruct text; [contradiction | unfold len; cbn [List.length]; lia]).
  apply process_file_Return; exists 1, (len text).
  split; [exact Em |].
  assert (ceil_div (len text) 1 = Return (len text)) as Ec.
  { unfold ceil_div; cbn [Z.eqb]; rewrite Z.div_1_r; f_equal; lia. }
  split; [exact Ec |].
  assert (plan text 1 (len text) = [(0, (0, len text))]) as ->.
  { unfold plan; change (range 1) with [0]; cbn [spans].
    destruct (Z.leb_spec (len text) 0); [lia |].
    unfold chunk_end; cbn [Z.sub Z.ltb Z.compare Z.pos_sub andb Z.add Z.opp].
    now rewrite Z.min_id. }
  cbn [map]; unfold info_of, span_start, span_end; cbn [fst snd].
  rewrite slice_all; cbn [sum_lines fold_right lines].
  unfold validate; rewrite Z.add_0_r, Z.eqb_refl; reflexivity.
Qed.

Lemma X4_single_chunk_is_whole_text_witness :
  exists c,
    process_file default_processor five_lines_text (Some 1) =
      Return {| returned := [c]; stderr := [] |} /\
    content c = five_lines_text.
Proof.
  eexists; split.
  - apply (X4_single_chunk_is_whole_text default_processor five_lines_text (Some 1)).
    + discriminate.
    + vm_compute; reflexivity.
  - reflexivity.
Defined.

(** ** The files of the chunks *)

Lemma spans_indices (content : str) (m cs : Z) (k a : nat) (pos : Z) :
  map fst (spans content m cs (map Z.of_nat (seq a k)) pos)
  = map Z.of_nat
      (seq a (List.length (spans content m cs (map Z.of_nat (seq a k)) pos))).
Proof.
  revert a pos; induction k as [|k IH]; intros a pos; [reflexivity |].
  cbn [seq map spans].
  destruct (len content <=? pos); [reflexivity |].
  cbn [map fst List.length seq]; f_equal; apply IH.
Qed.

(** X5.  The chunks are written to chunks/chunk_1.txt, chunks/chunk_2.txt and
    so on, in the order in which they are returned and without a gap, also
    when the loop stops early. *)
Theorem X5_chunk_files_are_numbered (self : ChunkProcessor) (text : str)
    (num_chunks : option Z) (r : report) :
  process_file self text num_chunks = Return r ->
  map file (returned r) = map chunk_file (range (len (returned r))).
Proof.
  intros (m & cs & _ & _ & ->)%process_file_Return; cbn [returned].
  assert (forall l, map file (map (info_of self text) l) = map chunk_file (map fst l)) as ->
    by (induction l as [|sp l IH]; cbn [map]; [reflexivity | now rewrite IH]).
  unfold plan, range, len; rewrite spans_indices, length_map, Nat2Z.id; reflexivity.
Qed.

Lemma X5_chunk_files_are_numbered_witness :
  exists r,
    process_file default_processor five_lines_text (Some 2) = Return r /\
    map file (returned r) = ["chunks/chunk_1.txt"; "chunks/chunk_2.txt"]%string.
Proof.
  assert (exists r, process_file default_processor five_lines_text (Some 2) = Return r)
    as [r Hr] by (eexists; vm_compute; reflexivity).
  exists r; split; [exact Hr |].
  rewrite (X5_chunk_files_are_numbered _ _ _ _ Hr).
  revert Hr; vm_compute; intros [= <-]; reflexivity.
Defined.

(** ** Where chunks end *)

Lemma slice_firstn {A : Type} (s : list A) (a c b : Z) :
  0 <= a <= c -> c <= b -> b <= len s ->
  slice s a c = firstn (Z.to_nat (c - a)) (slice s a b).
Proof.
  intros Hac Hcb Hb.
  rewrite <- (slice_app s a c b) by lia.
  pose proof (len_slice s a c ltac:(lia) ltac:(lia)) as Hlen.
  rewrite firstn_app, firstn_all2 by (unfold len in Hlen; lia).
  replace (Z.to_nat (c - a) - List.length (slice s a c))%nat with 0%nat
    by (unfold len in Hlen; lia).
  cbn [firstn]; now rewrite app_nil_r.
Qed.

(** A chunk that is followed by another one is of full size or ends with a
    marker. *)
Lemma chunk_end_full_or_marked (content : str) (m cs i pos : Z) :
  i < m - 1 -> 0 <= pos -> 0 <= cs ->
  chunk_end content m cs i pos < len content ->
  let chunk := slice content pos (chunk_end content m cs i pos) in
  len chunk = cs \/ ends_with chunk period_newline \/ ends_with chunk newline_newline.
Proof.
  intros Hi Hpos Hcs; unfold chunk_end; fold (naive_end content cs pos).
  destruct (Z.ltb_spec i (m - 1)); [cbn [andb] | lia].
  destruct (Z.ltb_spec (naive_end content cs pos) (len content)) as [Hlt | Hge];
    [| intros H'; exfalso; unfold naive_end in *; lia].
  assert (naive_end content cs pos = pos + cs) as En by (unfold naive_end in *; lia).
  set (naive := slice content pos (naive_end content cs pos)).
  assert (forall sub p, len sub = 2 -> occurs_at naive sub p ->
          ends_with (slice content pos (pos + p + 2)) sub) as Hends.
  { intros sub p Hsub Ho.
    pose proof (occurs_at_range _ _ _ Ho) as Hr.
    unfold naive in Hr; rewrite len_slice, Hsub in Hr by lia.
    destruct Ho as (pre & post & E & Hp).
    exists pre.
    rewrite (slice_firstn content pos (pos + p + 2) (naive_end content cs pos)) by lia.
    fold naive; rewrite E, app_assoc.
    replace (Z.to_nat (pos + p + 2 - pos)) with (List.length (pre ++ sub) + 0)%nat
      by (rewrite length_app; unfold len in *; lia).
    rewrite firstn_app_2; cbn [firstn]; now rewrite app_nil_r. }
  destruct (rfind_cases naive period_newline) as [[Ep _] | (Ep & Hp & _)];
    destruct (rfind_cases naive newline_newline) as [[En' _] | (En' & Hn & _)].
  - rewrite Ep, En'; cbn; intros _; left; rewrite En, len_slice; lia.
  - rewrite Ep, Z.max_r by lia.
    destruct (Z.eqb_spec (rfind naive newline_newline) (-1)); [lia | cbn [negb]].
    intros _; right; right; now apply Hends.
  - rewrite En', Z.max_l by lia.
    destruct (Z.eqb_spec (rfind naive period_newline) (-1)); [lia | cbn [negb]].
    intros _; right; left; now apply Hends.
  - destruct (Z.eqb_spec (Z.max (rfind naive period_newline)
                                (rfind naive newline_newline)) (-1)); [lia | cbn [negb]].
    intros _; right.
    destruct (Z.max_spec (rfind naive period_newline) (rfind naive newline_newline))
      as [[_ ->] | [_ ->]]; [right | left]; now apply Hends.
Qed.

Lemma spans_full_or_marked (content : str) (cs : Z) (k a : nat) (pos : Z) :
  0 <= pos -> 0 <= cs ->
  Forall (fun sp =>
            let chunk := slice content (span_start sp) (span_end sp) in
            len chunk = cs \/ ends_with chunk period_newline
            \/ ends_with chunk newline_newline)
         (removelast (spans content (Z.of_nat (a + k)) cs (map Z.of_nat (seq a k)) pos)).
Proof.
  intros Hpos Hcs; revert a pos Hpos; induction k as [|k IH]; intros a pos Hpos;
    [constructor |].
  cbn [seq map spans].
  destruct (Z.leb_spec (len content) pos) as [|Hin]; [constructor |].
  set (e := chunk_end content (Z.of_nat (a + S k)) cs (Z.of_nat a) pos).
  assert (pos <= e) as Hpe.
  { destruct (Z.le_gt_cases 1 cs) as [H1 | H1].
    - pose proof (chunk_end_bounds content (Z.of_nat (a + S k)) cs (Z.of_nat a) pos
                    (conj Hpos Hin) H1); unfold e; lia.
    - assert (cs = 0) as -> by lia.
      unfold e, chunk_end.
      rewrite Z.add_0_r, Z.min_l by lia.
      rewrite slice_empty by lia.
      destruct ((Z.of_nat a <? Z.of_nat (a + S k) - 1) && (pos <? len content));
        [cbn | lia]; lia. }
  destruct k as [|k]; [cbn [seq map spans removelast]; constructor |].
  specialize (IH (S a) e ltac:(lia)).
  replace (S a + S k)%nat with (a + S (S k))%nat in IH by lia.
  remember (spans content (Z.of_nat (a + S (S k))) cs (map Z.of_nat (seq (S a) (S k))) e)
    as tail eqn:Etail.
  destruct tail as [|sp tail]; [constructor |].
  change (removelast ((Z.of_nat a, (pos, e)) :: sp :: tail))
    with ((Z.of_nat a, (pos, e)) :: removelast (sp :: tail)).
  constructor; [| exact IH].
  unfold span_start, span_end; cbn [fst snd].
  apply chunk_end_full_or_marked; try lia.
  fold e; cbn [seq map spans] in Etail.
  destruct (Z.leb_spec (len content) e); [discriminate | lia].
Qed.

Lemma removelast_map {A B : Type} (f : A -> B) (l : list A) :
  removelast (map f l) = map f (removelast l).
Proof.
  induction l as [|x [|y l] IH]; try reflexivity.
  cbn [map removelast] in *; now rewrite IH.
Qed.

(** X6.  Every returned chunk but the last one either has the full chunk
    size or ends with one of the markers [.\n] and [\n\n]: a chunk is cut
    short only at a sentence end or a paragraph break. *)
Theorem X6_chunks_end_at_markers (self : ChunkProcessor) (text : str)
    (num_chunks : option Z) (planned chunk_size : Z) (r : report) :
  chunks_needed self text num_chunks = Return planned ->
  ceil_div (len text) planned = Return chunk_size ->
  process_file self text num_chunks = Return r ->
  Forall (fun c => chars c = chunk_size \/ ends_with (content c) period_newline
                   \/ ends_with (content c) newline_newline)
         (removelast (returned r)).
Proof.
  intros Em Ec (m & cs & Em' & Ec' & ->)%process_file_Return; cbn [returned].
  rewrite Em in Em'; injection Em' as <-.
  rewrite Ec in Ec'; injection Ec' as <-.
  rewrite removelast_map, Forall_map.
  destruct (Z.le_gt_cases planned 0) as [Hm | Hm].
  - unfold plan; rewrite range_nonpos by assumption; constructor.
  - pose proof (len_nonneg text) as HL.
    pose proof (ceil_div_pos _ _ _ Hm Ec) as [Hcs _].
    assert (0 <= chunk_size) as Hcs0 by nia.
    pose proof (spans_full_or_marked text chunk_size (Z.to_nat planned) 0 0
                  (Z.le_refl 0) Hcs0) as H.
    cbn [Nat.add] in H; rewrite Z2Nat.id in H by lia.
    exact H.
Qed.

Lemma X6_chunks_end_at_markers_witness :
  exists r,
    process_file default_processor five_lines_text (Some 2) = Return r /\
    Forall (fun c => chars c = 8 \/ ends_with (content c) period_newline
                     \/ ends_with (content c) newline_newline)
           (removelast (returned r)).
Proof.
  assert (exists r, process_file default_processor five_lines_text (Some 2) = Return r)
    as [r Hr] by (eexists; vm_compute; reflexivity).
  exists r; split; [exact Hr |].
  apply (X6_chunks_end_at_markers default_processor five_lines_text (Some 2) 2 8 r).
  - vm_compute; reflexivity.
  - vm_compute; reflexivity.
  - exact Hr.
Defined.

(** ** The requested count *)

(** X7.  A requested count that does not exceed the minimum that the token
    budget asks for has no effect: the call behaves as if no count had been
    requested.  With a positive effective limit this holds in particular for
    every requested count that is zero or negative. *)
Theorem X7_small_request_is_ignored (self : ChunkProcessor) (text : str)
    (n limit min_chunks : Z) :
  get_effective_limit self = Return limit ->
  ceil_div (estimate_tokens self text) limit = Return min_chunks ->
  (n <= min_chunks \/ (0 < limit /\ n <= 0)) ->
  process_file self text (Some n) = process_file self text None.
Proof.
  intros El Ec Hn.
  assert (n <= min_chunks) as Hle.
  { destruct Hn as [H | [Hl H]]; [exact H |].
    pose proof (ceil_div_pos _ _ _ Hl Ec) as [H' _].
    pose proof (estimate_tokens_nonneg self text); nia. }
  unfold process_file.
  rewrite (chunks_needed_Return self text (Some n) _ _ El Ec).
  rewrite (chunks_needed_Return self text None _ _ El Ec).
  now rewrite Z.max_r by lia.
Qed.

Lemma X7_small_request_is_ignored_witness :
  process_file default_processor five_lines_text (Some (-3))
  = process_file default_processor five_lines_text None.
Proof.
  apply (X7_small_request_is_ignored default_processor five_lines_text (-3) 100000 1).
  - vm_compute; reflexivity.
  - vm_compute; reflexivity.
  - right; lia.
Defined.



(** X9.  Asking for a number of chunks never yields fewer chunks than asking
    for none: whatever the requested count, a call that returns has at least
    as many chunks as the call without a requested count. *)
Theorem X9_request_never_reduces (self : ChunkProcessor) (text : str) (n : Z)
    (r0 r1 : report) :
  process_file self text None = Return r0 ->
  process_file self text (Some n) = Return r1 ->
  len (returned r0) <= len (returned r1).
Proof.
  intros (m0 & cs0 & Em0 & Ec0 & ->)%process_file_Return
         (m1 & cs1 & Em1 & Ec1 & ->)%process_file_Return.
  cbn [returned].
  apply chunks_needed_Some in Em1 as (l & mc & El & Emc & ->).
  rewrite (chunks_needed_Return self text None _ _ El Emc) in Em0; injection Em0 as <-.
  pose proof (plan_mono text mc (Z.max n mc) cs0 cs1) as H.
  unfold len in *; rewrite !length_map; apply H; (assumption || lia).
Qed.

Lemma X9_request_never_reduces_witness :
  exists r0 r1,
    process_file default_processor five_lines_text None = Return r0 /\
    process_file default_processor five_lines_text (Some 4) = Return r1 /\
    len (returned r0) <= len (returned r1).
Proof.
  assert (exists r, process_file default_processor five_lines_text None = Return r)
    as [r0 H0] by (eexists; vm_compute; reflexivity).
  assert (exists r, process_file default_processor five_lines_text (Some 4) = Return r)
    as [r1 H1] by (eexists; vm_compute; reflexivity).
  exists r0, r1; split; [exact H0 |]; split; [exact H1 |].
  exact (X9_request_never_reduces _ _ _ _ _ H0 H1).
Defined.

(** * The constructor and the effective limit *)

Lemma init_Return (h : host) (name : string) (sf : option num) (self : ChunkProcessor) :
  __init__ h name sf = Return self ->
  model self = name /\ map fst (context_limits self) = registry_names /\
  tokenizer self = get_encoding h "cl100k_base".
Proof.
  unfold __init__.
  destruct (or_else sf (env_safety_factor h)) as [x|e]; [|discriminate].
  cbn [bind]; intros [= <-]; repeat split.
Qed.

(** X10.  The constructor fails in one case only, and then with
    [ValueError]: no safety factor is given, or a zero one, and the
    environment sets CHUNK_SAFETY_FACTOR to a string that [float] rejects.
    A safety factor other than zero shields the call from the environment. *)
Theorem X10_constructor_failure (h : host) (name : string) (sf : option num) (e : exn) :
  __init__ h name sf = Raise e <->
  e = ValueError /\
  match sf with Some x => truthy x = false | None => True end /\
  exists s, getenv h "CHUNK_SAFETY_FACTOR" = Some s /\ float_of_str h s = None.
Proof.
  unfold __init__, or_else, env_safety_factor.
  destruct sf as [x|]; [destruct (truthy x) |]; cbn [bind];
    try (split; [discriminate | intros (_ & [=] & _)]);
    (destruct (getenv h "CHUNK_SAFETY_FACTOR") as [s|]; cbn [bind];
     [destruct (float_of_str h s) eqn:Ef; cbn [bind] |]);
    (split; [try discriminate | intros (-> & _ & s' & Es & Ef'); try discriminate]).
  all: try (intros [= <-]; repeat split; exists s; now split).
  all: try (injection Es as <-; congruence).
  all: try reflexivity.
Qed.

Lemma X10_constructor_failure_witness :
  __init__ misconfigured_host "gpt-4" (Some (Float 0)) = Raise ValueError /\
  exists self, __init__ misconfigured_host "gpt-4" (Some (Float 0.25)) = Return self.
Proof.
  split.
  - apply (X10_constructor_failure misconfigured_host "gpt-4" (Some (Float 0)) ValueError).
    split; [reflexivity |]. split; [reflexivity |].
    exists "half"%string; split; reflexivity.
  - eexists; reflexivity.
Defined.

Lemma int_of_scaled_not_KeyError (n : Z) (x : num) : int_of_scaled n x <> Raise KeyError.
Proof.
  destruct x as [z | f]; cbn [int_of_scaled]; [discriminate |].
  unfold int_of_float.
  destruct (Prim2SF (PrimFloat.mul (of_uint63 (of_Z n)) f)); discriminate.
Qed.

Lemma getitem_present (d : list (string * Z)) (k : string) :
  In k (map fst d) -> exists v, In (k, v) d /\ getitem d k = Return v.
Proof.
  induction d as [|[k' v] d IH]; cbn [getitem map fst In]; [intros [] |].
  intros H; destruct (String.eqb_spec k' k) as [-> | Hne].
  - exists v; split; [now left | reflexivity].
  - destruct H as [H | H]; [contradiction |].
    destruct (IH H) as (v' & Hin & E); exists v'; split; [now right | exact E].
Qed.

Lemma process_file_limit_error (self : ChunkProcessor) (text : str)
    (num_chunks : option Z) (e : exn) :
  get_effective_limit self = Raise e -> process_file self text num_chunks = Raise e.
Proof. intros E; unfold process_file, chunks_needed; now rewrite E. Qed.

(** X11.  For a processor that the constructor built, the effective limit
    raises [KeyError] exactly when the model is none of the three names of
    the registry; for a model of the registry it is the base limit of that
    model scaled by the safety factor and truncated. *)
Theorem X11_KeyError_only_for_unknown_model (h : host) (name : string)
    (sf : option num) (self : ChunkProcessor) :
  __init__ h name sf = Return self ->
  (get_effective_limit self = Raise KeyError <-> ~ In name registry_names) /\
  (In name registry_names ->
   exists base,
     In (name, base) [("claude-3-sonnet-20240229"%string, 200000);
                      ("gpt-4"%string, 8192); ("gpt-3.5-turbo"%string, 4096)] /\
     get_effective_limit self = int_of_scaled base (safety_factor self)).
Proof.
  intros Hinit.
  assert (context_limits self =
            [("claude-3-sonnet-20240229"%string, 200000);
             ("gpt-4"%string, 8192); ("gpt-3.5-turbo"%string, 4096)]) as Etab.
  { revert Hinit; unfold __init__.
    destruct (or_else sf (env_safety_factor h)); [|discriminate].
    cbn [bind]; now intros [= <-]. }
  destruct (init_Return _ _ _ _ Hinit) as (Em & En & _).
  assert (In name registry_names ->
          exists base, In (name, base) (context_limits self) /\
            get_effective_limit self = int_of_scaled base (safety_factor self)) as Hknown.
  { intros Hin; rewrite <- En, <- Em in Hin.
    destruct (getitem_present _ _ Hin) as (v & Hv & E).
    exists v; split; [now rewrite <- Em |].
    unfold get_effective_limit; now rewrite E. }
  split; [split | now rewrite <- Etab].
  - intros E Hin; destruct (Hknown Hin) as (base & _ & E').
    rewrite E' in E; exact (int_of_scaled_not_KeyError _ _ E).
  - intros Hnot; unfold get_effective_limit.
    rewrite getitem_absent; [reflexivity | now rewrite En, Em].
Qed.

Lemma X11_KeyError_only_for_unknown_model_witness :
  exists self,
    __init__ (sample_host 1) "gpt-4" (Some (Int 2)) = Return self /\
    get_effective_limit self <> Raise KeyError.
Proof.
  exists (sample "gpt-4" (Int 2) 1); split; [reflexivity |].
  destruct (X11_KeyError_only_for_unknown_model (sample_host 1) "gpt-4" (Some (Int 2))
              (sample "gpt-4" (Int 2) 1) eq_refl) as [[Hkey _] _].
  intros E; apply (Hkey E); right; left; reflexivity.
Defined.

(** X12.  A safety factor that is not a number or is infinite passes the
    constructor, since it is not zero; for every model of the registry the
    effective limit then raises [ValueError] (NaN) or [OverflowError]
    (infinity), and so does every call of [process_file]. *)
Theorem X12_nan_and_infinite_safety_factor (h : host) (name : string) :
  In name registry_names ->
  (exists self,
     __init__ h name (Some (Float nan)) = Return self /\
     get_effective_limit self = Raise ValueError /\
     forall text num_chunks, process_file self text num_chunks = Raise ValueError) /\
  (exists self,
     __init__ h name (Some (Float infinity)) = Return self /\
     get_effective_limit self = Raise OverflowError /\
     forall text num_chunks, process_file self text num_chunks = Raise OverflowError).
Proof.
  intros Hin.
  assert (forall (x : float) (e : exn),
            truthy (Float x) = true ->
            (forall base, In base [200000; 8192; 4096] ->
                          int_of_scaled base (Float x) = Raise e) ->
            exists self,
              __init__ h name (Some (Float x)) = Return self /\
              get_effective_limit self = Raise e /\
              forall text num_chunks, process_file self text num_chunks = Raise e) as Hgen.
  { intros x e Ht Hraise.
    unfold __init__, or_else; rewrite Ht; cbn [bind]; eexists; split; [reflexivity |].
    match goal with |- ?P /\ _ => assert P as E end.
    { unfold get_effective_limit; cbn [context_limits model safety_factor].
      destruct Hin as [<- | [<- | [<- | []]]]; cbn [getitem String.eqb Ascii.eqb Bool.eqb bind];
        apply Hraise; cbn; tauto. }
    split; [exact E | intros text num_chunks; now apply process_file_limit_error]. }
  split; apply Hgen; try reflexivity;
    intros base [<- | [<- | [<- | []]]]; vm_compute; reflexivity.
Qed.

Lemma X12_nan_and_infinite_safety_factor_witness :
  exists self,
    __init__ (sample_host 1) "gpt-4" (Some (Float nan)) = Return self /\
    get_effective_limit self = Raise ValueError.
Proof.
  destruct (X12_nan_and_infinite_safety_factor (sample_host 1) "gpt-4")
    as [(self & E & Hlimit & _) _].
  - right; left; reflexivity.
  - exists self; split; assumption.
Defined.

(** * LittleLisperConverter *)

(** ** The stitched file *)

Lemma write_sections_chapters (i : Z) (sections : list str) (written : str) :
  write_sections i sections written = written ++ chapters i sections.
Proof.
  revert i written; induction sections as [|section rest IH]; intros i written;
    cbn [write_sections chapters]; [now rewrite app_nil_r |].
  rewrite IH; unfold chapter; now rewrite <- !app_assoc.
Qed.

Lemma chapters_app (i : Z) (sections more : list str) :
  chapters i (sections ++ more) = chapters i sections ++ chapters (i + len sections) more.
Proof.
  revert i; induction sections as [|section rest IH]; intros i; cbn [app chapters].
  - change (len (@nil str)) with 0; now rewrite Z.add_0_r.
  - rewrite IH, <- app_assoc; do 3 f_equal.
    unfold len; cbn [List.length]; lia.
Qed.

(** X13.  The stitched file is the header followed by one chapter for each
    section, in order and numbered from 1; a converter with further
    sections writes the same file followed by the chapters of the further
    sections, numbered on from where the first ones end. *)
Theorem X13_stitched_file_grows_by_chapters (self : LittleLisperConverter)
    (more : list str) (output_file : string) :
  stitch_org_file self output_file
    = (output_file, org_header ++ chapters 1 (org_sections self)) /\
  stitch_org_file {| chunks := chunks self; org_sections := org_sections self ++ more |}
                  output_file
    = (output_file,
       snd (stitch_org_file self output_file)
         ++ chapters (len (org_sections self) + 1) more).
Proof.
  unfold stitch_org_file; cbn [org_sections snd].
  rewrite !write_sections_chapters, chapters_app, <- app_assoc.
  split; [reflexivity |].
  now replace (len (org_sections self) + 1) with (1 + len (org_sections self)) by lia.
Qed.

(** ** Converting a chunk *)





(** ** Converting all chunks *)

Lemma check_ollama_true (s : service) :
  check_ollama s = true <-> exists names, tags s = Some (200, names) /\ In MODEL names.
Proof.
  unfold check_ollama; destruct (tags s) as [[code names]|]; split.
  - destruct (Z.eqb_spec code 200) as [-> |]; [|discriminate].
    rewrite existsb_exists; intros (name & Hin & ->%String.eqb_eq).
    now exists names.
  - intros (names' & [= -> ->] & Hin); cbn [Z.eqb Pos.eqb].
    apply existsb_exists; exists MODEL; split; [exact Hin | apply String.eqb_refl].
  - discriminate.
  - intros (names & [=] & _).
Qed.

Lemma convert_each_Return (s : service) (chunks_info : list chunk_info)
    (converter converter' : LittleLisperConverter) :
  convert_each s chunks_info converter = Return converter' ->
  exists sections,
    Forall2 (fun c section => convert_chunk s (content c) = Return section)
            chunks_info sections /\
    org_sections converter' = org_sections converter ++ sections /\
    chunks converter' = chunks converter.
Proof.
  revert converter; induction chunks_info as [|c rest IH]; intros converter;
    cbn [convert_each].
  - intros [= <-]; exists []; split; [constructor | now rewrite app_nil_r].
  - destruct (convert_chunk s (content c)) as [section|e] eqn:Ec; [|discriminate].
    cbn [bind]; intros (sections & Hall & Es & Ech)%IH.
    exists (section :: sections); split; [now constructor |].
    cbn [org_sections chunks] in Es, Ech; now rewrite Es, <- app_assoc.
Qed.




(** * The interactive walk and the command *)

(** ** The interactive walk *)

(** X16.  When pbcopy never fails, the walk puts the chunks on the clipboard
    one by one in their order, without skipping or repeating one, and
    writes nothing to stderr; it ends before the last chunk only after the
    user has declined to continue, and the chunk just copied is then the
    last one on the clipboard. *)
Theorem X16_walk_copies_leading_chunks (pbcopy : str -> outcome unit)
    (chunks_info : list chunk_info) (answers : list bool) (w : walk) :
  (forall t, exists u, pbcopy t = Return u) ->
  process_interactively pbcopy chunks_info answers = Return w ->
  errors w = [] /\
  exists k,
    (k <= List.length chunks_info)%nat /\
    clipboard w = map content (firstn k chunks_info) /\
    ((k < List.length chunks_info)%nat ->
     (0 < k)%nat /\ nth_error answers (k - 1) = Some false).
Proof.
  intros Hok; revert answers w; induction chunks_info as [|c rest IH]; intros answers w.
  - cbn; intros [= <-]; split; [reflexivity |].
    exists 0%nat; cbn; repeat split; lia.
  - cbn [process_interactively]; destruct (Hok (content c)) as [u ->].
    destruct answers as [|a answers]; [discriminate |].
    cbn [confirm bind fst snd]; destruct a.
    + destruct (process_interactively pbcopy rest answers) as [w'|e] eqn:E; [|discriminate].
      cbn [bind]; intros [= <-]; cbn [errors clipboard].
      destruct (IH _ _ E) as (Herr & k & Hk & Hclip & Hstop).
      split; [exact Herr |].
      exists (S k); cbn [List.length firstn map]; split; [lia |].
      split; [now rewrite Hclip |].
      intros Hlt; split; [lia |].
      assert (k < List.length rest)%nat as Hlt' by lia.
      destruct (Hstop Hlt') as [Hpos Hnth].
      destruct k as [|k']; [lia |].
      cbn [Nat.sub nth_error] in Hnth |- *.
      rewrite Nat.sub_0_r in Hnth; exact Hnth.
    + intros [= <-]; cbn [errors clipboard]; split; [reflexivity |].
      exists 1%nat; cbn [List.length firstn map]; split; [lia |].
      split; [reflexivity |].
      intros _; split; [lia | reflexivity].
Qed.

Lemma X16_walk_copies_leading_chunks_witness :
  exists w,
    process_interactively (fun _ => Return tt)
      (map (info_of default_processor five_lines_text) [(0, (0, 3)); (1, (3, 11))])
      [false; true] = Return w /\
    clipboard w = [text ("a." ++ nl)] /\ errors w = [].
Proof.
  eexists; split; [vm_compute; reflexivity |].
  destruct (X16_walk_copies_leading_chunks (fun _ => Return tt)
              (map (info_of default_processor five_lines_text) [(0, (0, 3)); (1, (3, 11))])
              [false; true]
              {| clipboard := [text ("a." ++ nl)]; errors := [] |})
    as [Herr _].
  - intros t; now exists tt.
  - vm_compute; reflexivity.
  - split; [reflexivity | exact Herr].
Defined.

(** ** The command as a whole *)

(** X17.  For a model that the registry lacks, the command fails with
    [KeyError] as soon as the processor is built: whatever the file holds,
    it is neither chunked nor converted, and nothing reaches the clipboard. *)
Theorem X17_command_rejects_unknown_model (h : host) (s : service)
    (pbcopy : str -> outcome unit) (answers : list bool) (filename : string)
    (read : file_read) (num_chunks : option Z) (interactive : bool) (name : string)
    (safety_factor : option num) (little_lisper : bool) (processor : ChunkProcessor) :
  __init__ h name safety_factor = Return processor ->
  ~ In name registry_names ->
  main h s pbcopy answers filename read num_chunks interactive name safety_factor
       little_lisper = Raise KeyError.
Proof.
  intros Hinit Hnot; unfold main; rewrite Hinit; cbn [bind].
  destruct (init_Return _ _ _ _ Hinit) as (_ & En & _).
  rewrite getitem_absent; [reflexivity | now rewrite En].
Qed.

Lemma X17_command_rejects_unknown_model_witness :
  main (sample_host 1) sample_service (fun _ => Return tt) [] "PAIP.txt"
       (Decoded five_lines_text) None false "gpt-5" None true = Raise KeyError.
Proof.
  apply (X17_command_rejects_unknown_model _ _ _ _ _ _ _ _ _ _ _
           (sample "gpt-5" (Float DEFAULT_SAFETY_FACTOR) 1)).
  - reflexivity.
  - cbn; intros [H | [H | [H | []]]]; discriminate.
Defined.

Lemma process_input_file_Return (self : ChunkProcessor) (pbcopy : str -> outcome unit)
    (answers : list bool) (input_file : string) (read : file_read)
    (num_chunks : option Z) (interactive : bool) (c : call) (l : list chunk_info) :
  process_input_file self pbcopy answers input_file read num_chunks interactive = Return c ->
  value c = Some l ->
  exists content r,
    read = Decoded content /\ process_file self content num_chunks = Return r /\
    returned r = l.
Proof.
  unfold process_input_file; destruct read as [content| |].
  - destruct (process_file self content num_chunks) as [r|e] eqn:Er; [|discriminate].
    cbn [bind].
    destruct (if interactive then _ else _) as [w|e]; [|discriminate].
    cbn [bind]; intros [= <-]; cbn [value]; intros [= <-].
    exists content, r; repeat split; assumption.
  - intros [= <-]; discriminate.
  - intros [= <-]; discriminate.
Qed.

Lemma convert_to_little_lisper_Some (s : service) (chunks_info : list chunk_info)
    (file : string * str) :
  convert_to_little_lisper s chunks_info = Return (Some file) ->
  exists sections,
    Forall2 (fun c section => convert_chunk s (content c) = Return section)
            chunks_info sections /\
    file = ("little-lisper-paip.org"%string, org_header ++ chapters 1 sections).
Proof.
  unfold convert_to_little_lisper.
  destruct (check_ollama s); cbn [negb]; [|discriminate].
  destruct (convert_each s chunks_info new_converter) as [converter|e] eqn:E;
    [|discriminate].
  cbn [bind]; intros [= <-].
  destruct (convert_each_Return _ _ _ _ E) as (sections & Hall & Es & _).
  exists sections; split; [exact Hall |].
  unfold stitch_org_file; rewrite write_sections_chapters, Es; reflexivity.
Qed.

(** X18.  The command writes the converted file only when it is asked to
    and the call has returned at least one chunk; the file then holds one
    chapter for each returned chunk, in order, each the conversion of that
    chunk, and the chunks are consecutive pieces of the file read, from its
    start.  A file that cannot be read or yields no chunk is never
    converted. *)
Theorem X18_command_converts_returned_chunks (h : host) (s : service)
    (pbcopy : str -> outcome unit) (answers : list bool) (filename : string)
    (read : file_read) (num_chunks : option Z) (interactive : bool) (name : string)
    (safety_factor : option num) (little_lisper : bool)
    (c : call) (file : string * str) :
  main h s pbcopy answers filename read num_chunks interactive name safety_factor
       little_lisper = Return (c, Some file) ->
  little_lisper = true /\
  exists body chunks_info sections,
    read = Decoded body /\
    value c = Some chunks_info /\ chunks_info <> [] /\
    body = List.concat (map content chunks_info)
             ++ slice body (sum_chars chunks_info) (len body) /\
    Forall2 (fun chunk section => convert_chunk s (content chunk) = Return section)
            chunks_info sections /\
    file = ("little-lisper-paip.org"%string, org_header ++ chapters 1 sections).
Proof.
  unfold main.
  destruct (__init__ h name safety_factor) as [processor|]; [|discriminate]; cbn [bind].
  destruct (getitem (context_limits processor) name); [|discriminate]; cbn [bind].
  destruct (get_effective_limit processor); [|discriminate]; cbn [bind].
  destruct (process_input_file processor pbcopy answers filename read num_chunks interactive)
    as [c'|] eqn:Ecall; [|discriminate]; cbn [bind].
  destruct (value c') as [[|chunk rest]|] eqn:Ev; try (intros [=]; fail).
  destruct little_lisper; [|intros [=]].
  destruct (convert_to_little_lisper s (chunk :: rest)) as [written|] eqn:Econv;
    [|discriminate].
  cbn [bind]; intros [= <- ->]; split; [reflexivity |].
  destruct (process_input_file_Return _ _ _ _ _ _ _ _ _ Ecall Ev)
    as (body & r & -> & Hr & Hret).
  destruct (run_stop _ _ _ _ Hr) as (stop & Hstop & Hcat & Hsum & _).
  destruct (convert_to_little_lisper_Some s (chunk :: rest) file Econv)
    as (sections & Hall & ->).
  exists body, (chunk :: rest), sections.
  split; [reflexivity |]. split; [exact Ev |]. split; [discriminate |].
  split; [| split; [exact Hall | reflexivity]].
  rewrite <- Hret, Hsum, Hcat; now apply slice_prefix.
Qed.

Lemma X18_command_converts_returned_chunks_witness :
  exists c file,
    main (sample_host 1) sample_service (fun _ => Return tt) [] "PAIP.txt"
         (Decoded five_lines_text) (Some 2) false "gpt-4" None true
      = Return (c, Some file) /\
    exists sections,
      file = ("little-lisper-paip.org"%string, org_header ++ chapters 1 sections).
Proof.
  assert (exists c file,
            main (sample_host 1) sample_service (fun _ => Return tt) [] "PAIP.txt"
                 (Decoded five_lines_text) (Some 2) false "gpt-4" None true
              = Return (c, Some file)) as (c & file & E)
    by (eexists; eexists; vm_compute; reflexivity).
  exists c, file; split; [exact E |].
  destruct (X18_command_converts_returned_chunks _ _ _ _ _ _ _ _ _ _ _ _ _ E)
    as (_ & body & chunks_info & sections & _ & _ & _ & _ & _ & Hfile).
  now exists sections.
Defined.



